(** * qiskit-metal: the eigenmode simulation wrapper and the tree-view base

    A shallow embedding of

    - [qiskit_metal/analyses/quantization/sim_eigenmode.py] (class
      [EigenmodeSim]) and
    - [qiskit_metal/_gui/tree_view_base.py] (class [QTreeView_Base]).

    [EigenmodeSim] is orchestration code: it formats arguments, calls an
    external renderer object, and stores what comes back.  Its methods are
    embedded in a state-and-exception monad whose runs also record every
    call that leaves the class (to the renderer, to third-party libraries,
    to members inherited from the base class).  The renderer, the libraries
    and the base class are not part of the two files; they are parameters of
    the development and every theorem holds for all their behaviours. *)

From Stdlib Require Import ZArith PrimFloat.
From stdpp Require Import base strings list gmap.

Set Warnings "-register-all,-inexact-float".
Local Open Scope string_scope.
Local Open Scope Z_scope.
Local Open Scope list_scope.

(** ** Python values *)

(** The built-in data this code handles, plus opaque handles for objects of
    third-party libraries (pandas [DataFrame], matplotlib [Figure], [Axes],
    ...), whose behaviour is decided by their library.  Dictionaries keep
    insertion order; all dictionaries in this code have string keys. *)
Inductive value : Type :=
| VNone
| VBool (b : bool)
| VInt (z : Z)
| VFloat (f : float)
| VStr (s : string)
| VTuple (items : list value)
| VList (items : list value)
| VDict (entries : list (string * value))
| VObj (handle : nat).

(** [v is None] *)
Definition is_none (v : value) : bool :=
  match v with VNone => true | _ => false end.

(** [d[k]] on the entries of a dictionary. *)
Fixpoint dict_get (k : string) (entries : list (string * value)) : option value :=
  match entries with
  | [] => None
  | (k', v) :: rest => if String.eqb k k' then Some v else dict_get k rest
  end.

(** [v[k]] for a string key; [None] stands for [KeyError] or [TypeError]. *)
Definition subscript (v : value) (k : string) : option value :=
  match v with
  | VDict entries => dict_get k entries
  | _ => None
  end.

(** [list(v.keys())] *)
Definition keys (v : value) : list string :=
  match v with
  | VDict entries => entries.*1
  | _ => []
  end.

(** Keyword arguments of a call ([**kwargs]): a finite map from parameter
    names to values. *)
Abbreviation kwargs := (gmap string value).

(** ** Exceptions and results *)

Inductive exn : Type := Exn (cls : string) (detail : string).

Definition TypeError := Exn "TypeError".
Definition ValueError := Exn "ValueError".
Definition AttributeError := Exn "AttributeError".
Definition IndexError := Exn "IndexError".
Definition KeyError := Exn "KeyError".

Inductive result (A : Type) : Type :=
| Ok (a : A)
| Raised (e : exn).
Arguments Ok {A} a.
Arguments Raised {A} e.

Definition result_map {A B} (f : A -> B) (r : result A) : result B :=
  match r with Ok a => Ok (f a) | Raised e => Raised e end.

(** ** What a run records *)

(** Who is called: the renderer object ([self.renderer]) or a third-party
    library (matplotlib, pandas, pyEPR's report functions). *)
Inductive callee : Type := Renderer | Library.

Inductive event : Type :=
| Called (c : callee) (meth : string) (args : list value) (kw : kwargs)
    (response : result value)
| Inherited (member : string) (response : result value).

(** The exception an event ended with, if any. *)
Definition failure (ev : event) : option exn :=
  match ev with
  | Called _ _ _ _ (Raised e) | Inherited _ (Raised e) => Some e
  | _ => None
  end.

(** The renderer method an event calls, if it is a renderer call. *)
Definition renderer_method (ev : event) : option string :=
  match ev with
  | Called Renderer m _ _ _ => Some m
  | _ => None
  end.

Module EigenmodeSim.

(** The class attribute [default_setup], as the class statement builds it. *)
Definition default_setup : value :=
  VDict [("sim", VDict [("name", VStr "Setup");
                        ("min_freq_ghz", VInt 1);
                        ("n_modes", VInt 1);
                        ("max_delta_f", VFloat 0.5);
                        ("max_passes", VInt 10);
                        ("min_passes", VInt 1);
                        ("min_converged", VInt 1);
                        ("pct_refinement", VInt 30);
                        ("basis_order", VInt 1);
                        ("vars", VDict [("Lj", VStr "10 nH");
                                        ("Cj", VStr "0 fF")])])].

(** The defaults the documentation of the class gives for
    [default_setup['sim']], entry by entry. *)
Definition sim_defaults (setup : value) : Prop :=
  ∃ sim vars,
    subscript setup "sim" = Some sim ∧
    keys sim = ["name"; "min_freq_ghz"; "n_modes"; "max_delta_f";
                "max_passes"; "min_passes"; "min_converged";
                "pct_refinement"; "basis_order"; "vars"] ∧
    subscript sim "name" = Some (VStr "Setup") ∧
    subscript sim "min_freq_ghz" = Some (VInt 1) ∧
    subscript sim "n_modes" = Some (VInt 1) ∧
    subscript sim "max_delta_f" = Some (VFloat 0.5) ∧
    subscript sim "max_passes" = Some (VInt 10) ∧
    subscript sim "min_passes" = Some (VInt 1) ∧
    subscript sim "min_converged" = Some (VInt 1) ∧
    subscript sim "pct_refinement" = Some (VInt 30) ∧
    subscript sim "basis_order" = Some (VInt 1) ∧
    subscript sim "vars" = Some vars ∧
    keys vars = ["Lj"; "Cj"] ∧
    subscript vars "Lj" = Some (VStr "10 nH") ∧
    subscript vars "Cj" = Some (VStr "0 fF").

Section WithOutside.

(** The state of everything outside the two files: the renderer process,
    the libraries, the design, the base-class part of the instance. *)
Variable X : Type.

(** What code outside the class can reach: the class attribute
    [EigenmodeSim.default_setup] (a module-level object) and its own state. *)
Record shared : Type := Shared {
  cls_default_setup : value;
  outside : X }.

(** The instance attributes this class assigns ([self.__dict__] restricted
    to them) and the shared part. *)
Record world : Type := World {
  attrs : gmap string value;
  env : shared }.

(** A run ends with a value or an exception, in a final world (mutations
    made before an exception stay), having made the calls of [trace]. *)
Record outcome (A : Type) : Type := Outcome {
  res : result A;
  final : world;
  trace : list event }.
Arguments Outcome {A} res final trace.
Arguments res {A} o.
Arguments final {A} o.
Arguments trace {A} o.

Definition M (A : Type) : Type := world -> outcome A.

Definition ret {A} (a : A) : M A := fun w => Outcome (Ok a) w [].

Definition raise {A} (e : exn) : M A := fun w => Outcome (Raised e) w [].

(** The outcome [o], with the events [tr] made before it. *)
Definition after {A} (tr : list event) (o : outcome A) : outcome A :=
  let '(Outcome r w tr') := o in Outcome r w (tr ++ tr').

Definition bind {A B} (m : M A) (k : A -> M B) : M B := fun w =>
  match m w with
  | Outcome (Ok a) w' tr => after tr (k a w')
  | Outcome (Raised e) w' tr => Outcome (Raised e) w' tr
  end.

#[local] Instance M_ret : MRet M := @ret.
#[local] Instance M_bind : MBind M := fun A B k m => bind m k.

(** [try: body except Exception as e: handler(e)].  No method of the class
    uses it; it is here so that recovery is expressible in the monad. *)
Definition try_except {A} (body : M A) (handler : exn -> M A) : M A := fun w =>
  match body w with
  | Outcome (Ok a) w' tr => Outcome (Ok a) w' tr
  | Outcome (Raised e) w' tr => after tr (handler e w')
  end.

(** *** The collaborators *)

(** A call on the renderer or into a library: method name, positional and
    keyword arguments.  It answers or raises, and may change what it can
    reach; the instance is never among its arguments. *)
Variable outside_call :
  callee -> string -> list value -> kwargs -> shared -> result value * shared.

(** The members [EigenmodeSim] inherits from [QAnalysisRenderer] and uses.
    The base classes are in [analyses/core], not in this file; their
    members are taken with the types their use here gives them, and may do
    anything to the instance and to the shared part. *)
Record QAnalysisRenderer : Type := {
  (* super().__init__(design, renderer_name) *)
  super_init : value -> string -> world -> result unit * world;
  (* self.design.name *)
  design_name : world -> result string * world;
  (* self.renderer_name *)
  renderer_name : world -> result string * world;
  (* self.renderer_initialized *)
  renderer_initialized : world -> result bool * world;
  (* self._initialize_renderer() *)
  _initialize_renderer : world -> result unit * world;
  (* self.setup.sim, a dictionary of keyword arguments *)
  setup_sim : world -> result kwargs * world }.

Variable base : QAnalysisRenderer.

Definition call (c : callee) (meth : string) (args : list value) (kw : kwargs)
  : M value := fun w =>
  let '(r, e') := outside_call c meth args kw (env w) in
  Outcome r (World (attrs w) e') [Called c meth args kw r].

(** Use of an inherited member; [show] is how its answer is recorded. *)
Definition inherited {T} (member : string) (show : T -> value)
    (f : world -> result T * world) : M T := fun w =>
  let '(r, w') := f w in
  Outcome r w' [Inherited member (result_map show r)].

Definition show_unit (_ : unit) : value := VNone.

Definition show_kwargs (kw : kwargs) : value := VDict (map_to_list kw).

(** [self.name] for an attribute this class assigns. *)
Definition getattr (name : string) : M value := fun w =>
  match attrs w !! name with
  | Some v => Outcome (Ok v) w []
  | None => Outcome (Raised (AttributeError name)) w []
  end.

(** [self.name = v] *)
Definition setattr (name : string) (v : value) : M unit := fun w =>
  Outcome (Ok tt) (World (<[name := v]> (attrs w)) (env w)) [].

(** *** Python operations on values *)

(** An explicit keyword next to [**kw] in one call: a repeated keyword is a
    [TypeError] raised before the callee runs. *)
Definition keyword (k : string) (v : value) (kw : kwargs) : M kwargs :=
  match kw !! k with
  | Some _ => raise (TypeError "got multiple values for keyword argument")
  | None => ret (<[k := v]> kw)
  end.

(** [a + s] where [s] is a [str].  Only [str] concatenates with a [str];
    an object of a library decides for itself ([__add__]). *)
Definition add_str (a : value) (s : string) : M value :=
  match a with
  | VStr a' => ret (VStr (a' +:+ s))
  | VObj _ => call Library "__add__" [a; VStr s] ∅
  | _ => raise (TypeError "unsupported operand type(s) for +")
  end.

Definition chars (s : string) : list value :=
  (fun c => VStr (String c "")) <$> String.list_ascii_of_string s.

(** The items [iter(v)] yields.  For an object of a library the items are
    whatever the library yields, answered as one list. *)
Definition iterate (v : value) : M (list value) :=
  match v with
  | VTuple l | VList l => ret l
  | VStr s => ret (chars s)
  | VDict d => ret ((fun kv => VStr kv.1) <$> d)
  | VObj _ =>
      r ← call Library "__iter__" [v] ∅;
      match r with
      | VList l | VTuple l => ret l
      | _ => raise (TypeError "iter() returned non-iterator")
      end
  | _ => raise (TypeError "cannot unpack non-iterable object")
  end.

(** [a, b = v] *)
Definition unpack2 (v : value) : M (value * value) :=
  items ← iterate v;
  match items with
  | [a; b] => ret (a, b)
  | [] | [_] => raise (ValueError "not enough values to unpack (expected 2)")
  | _ => raise (ValueError "too many values to unpack (expected 2)")
  end.

(** [v[i]] for a small integer index. *)
Definition getitem (v : value) (i : nat) : M value :=
  match v with
  | VTuple l | VList l =>
      match l !! i with
      | Some x => ret x
      | None => raise (IndexError "index out of range")
      end
  | VStr s =>
      match String.get i s with
      | Some c => ret (VStr (String c ""))
      | None => raise (IndexError "string index out of range")
      end
  | VDict _ => raise (KeyError "integer key")
  | VObj _ => call Library "__getitem__" [v; VInt (Z.of_nat i)] ∅
  | _ => raise (TypeError "object is not subscriptable")
  end.

(** [recv.name] for the names this code looks up on library objects
    ([add_subplot], [twinx], [tight_layout], [iloc]).  No built-in type has
    an attribute of these names; on a library object the lookup belongs to
    the call that follows. *)
Definition attribute (recv : value) (name : string) : M unit :=
  match recv with
  | VObj _ => ret tt
  | _ => raise (AttributeError name)
  end.

(** [recv.name(args, **kw)] with arguments already evaluated. *)
Definition method (recv : value) (name : string) (args : list value)
    (kw : kwargs) : M value :=
  attribute recv name;;
  call Library name (recv :: args) kw.

(** [frame.iloc[:, col]] *)
Definition iloc_column (frame : value) (col : Z) : M value :=
  method frame "iloc" [VInt col] ∅.

(** ** The methods of [EigenmodeSim] *)

Definition __init__ (design : value) (renderer_name : string) : M value :=
  inherited "__init__" show_unit (super_init base design renderer_name);;
  setattr "setup_name" VNone;;
  setattr "_convergence_t" VNone;;
  setattr "_convergence_f" VNone;;
  ret VNone.

(** [EigenmodeSim(design)] and [EigenmodeSim(design, renderer_name)]: the
    initialiser runs on an instance with no attribute yet. *)
Definition instantiate (design : value) (renderer_name : option string)
    (e : shared) : outcome value :=
  __init__ design (default "hfss" renderer_name) (World ∅ e).

Definition _render (design_selection : kwargs) : M value :=
  design_name ← inherited "design.name" VStr (design_name base);
  '(base_name, design_selection) ← ret
    match design_selection !! "name" with
    | Some name =>
        if is_none name then (VStr design_name, design_selection)
        else (name, delete "name" design_selection)
    | None => (VStr design_name, design_selection)
    end;
  prefix ← add_str base_name "_";
  renderer_name ← inherited "renderer_name" VStr (renderer_name base);
  design_name ← add_str prefix renderer_name;
  kw ← keyword "solution_type" (VStr "eigenmode") design_selection;
  call Renderer "execute_design" [design_name] kw.

(** The property setters, used by [_analyze] and [recompute_convergences]
    through the assignments [self.convergence_t = ...]. *)
Definition convergence_f : M value := getattr "_convergence_f".

Definition set_convergence_f (conv : value) : M value :=
  setattr "_convergence_f" conv;; ret VNone.

Definition convergence_t : M value := getattr "_convergence_t".

Definition set_convergence_t (conv : value) : M value :=
  setattr "_convergence_t" conv;; ret VNone.

Definition _analyze : M value :=
  sim ← inherited "setup.sim" show_kwargs (setup_sim base);
  setup_name ← call Renderer "initialize_eigenmode" [] sim;
  setattr "setup_name" setup_name;;
  setup_name ← getattr "setup_name";
  call Renderer "analyze_setup" [setup_name] ∅;;
  both ← call Renderer "get_convergences" [] ∅;
  '(t, f) ← unpack2 both;
  set_convergence_t t;;
  set_convergence_f f;;
  ret VNone.

Definition run_sim (name components open_terminations port_list jj_to_port
    ignored_jjs box_plus_buffer : value) : M value :=
  initialized ← inherited "renderer_initialized" VBool
                  (renderer_initialized base);
  (if negb initialized
   then inherited "_initialize_renderer" show_unit (_initialize_renderer base)
   else ret tt);;
  renderer_design_name ← _render
    (<["name" := name]>
     (<["selection" := components]>
      (<["open_pins" := open_terminations]>
       (<["port_list" := port_list]>
        (<["jj_to_port" := jj_to_port]>
         (<["ignored_jjs" := ignored_jjs]>
          (<["box_plus_buffer" := box_plus_buffer]> ∅)))))));
  _analyze;;
  setup_name ← getattr "setup_name";
  ret (VTuple [renderer_design_name; setup_name]).

Definition recompute_convergences (variation : value) : M value :=
  both ← call Renderer "get_convergences" [variation] ∅;
  '(t, f) ← unpack2 both;
  set_convergence_t t;;
  set_convergence_f f;;
  ret VNone.

Definition plot_convergences (convergence_t' convergence_f' fig _display : value)
  : M value :=
  convergence_t' ←
    (if is_none convergence_t' then convergence_t else ret convergence_t');
  convergence_f' ←
    (if is_none convergence_f' then convergence_f else ret convergence_f');
  if is_none fig then
    fig ← call Library "plt.figure" []
            {["figsize" := VTuple [VInt 11; VFloat 3]]};
    gs ← call Library "mpl.gridspec.GridSpec" [VInt 1; VInt 3]
           {["width_ratios" := VList [VFloat 1.2; VFloat 1.5; VInt 1]]};
    (* axs = [fig.add_subplot(gs[i]) for i in range(3)] *)
    let subplot i :=
      (attribute fig "add_subplot";;
       spec ← getitem gs i;
       call Library "add_subplot" [fig; spec] ∅) in
    axs0 ← subplot 0%nat;
    axs1 ← subplot 1%nat;
    axs2 ← subplot 2%nat;
    ax0t ← method axs1 "twinx" [] ∅;
    call Library "plot_convergence_f_vspass" [axs0; convergence_f'] ∅;;
    max_df ← iloc_column convergence_t' 1;
    call Library "plot_convergence_max_df" [axs1; max_df] ∅;;
    solved ← iloc_column convergence_t' 0;
    call Library "plot_convergence_solved_elem" [ax0t; solved] ∅;;
    max_df ← iloc_column convergence_t' 1;
    solved ← iloc_column convergence_t' 0;
    call Library "plot_convergence_maxdf_vs_sol" [axs2; max_df; solved] ∅;;
    method fig "tight_layout" [] {["w_pad" := VFloat 0.1]};;
    ret VNone
  else ret VNone.

Definition plot_fields (object_name eigenmode : value) (args : list value)
    (kw : kwargs) : M value :=
  setup_name ← getattr "setup_name";
  call Renderer "set_mode" [eigenmode; setup_name] ∅;;
  kw ← keyword "object_name" object_name kw;
  call Renderer "plot_fields" args kw.

Definition clear_fields (names : value) : M value :=
  call Renderer "clear_fields" [names] ∅.

(** *** Operations on an instance *)

(** Everything a caller can do with an instance: construct it (again), call
    a method, read or assign a property. *)
Inductive operation : Type :=
| Init (design : value) (renderer_name : string)
| Render (design_selection : kwargs)
| Analyze
| RunSim (name components open_terminations port_list jj_to_port ignored_jjs
    box_plus_buffer : value)
| GetConvergenceF
| SetConvergenceF (conv : value)
| GetConvergenceT
| SetConvergenceT (conv : value)
| RecomputeConvergences (variation : value)
| PlotConvergences (convergence_t convergence_f fig _display : value)
| PlotFields (object_name eigenmode : value) (args : list value) (kw : kwargs)
| ClearFields (names : value).

Definition perform (op : operation) : M value :=
  match op with
  | Init design renderer_name => __init__ design renderer_name
  | Render design_selection => _render design_selection
  | Analyze => _analyze
  | RunSim name components open_terminations port_list jj_to_port ignored_jjs
      box_plus_buffer =>
      run_sim name components open_terminations port_list jj_to_port
        ignored_jjs box_plus_buffer
  | GetConvergenceF => convergence_f
  | SetConvergenceF conv => set_convergence_f conv
  | GetConvergenceT => convergence_t
  | SetConvergenceT conv => set_convergence_t conv
  | RecomputeConvergences variation => recompute_convergences variation
  | PlotConvergences t f fig _display => plot_convergences t f fig _display
  | PlotFields object_name eigenmode args kw =>
      plot_fields object_name eigenmode args kw
  | ClearFields names => clear_fields names
  end.

(** A caller performing operations one after the other, going on after an
    exception (it may catch it). *)
Definition perform_all (ops : list operation) (w : world) : world :=
  foldl (fun w op => final (perform op w)) w ops.

(** The calls on the renderer among the events of a run. *)
Fixpoint renderer_calls (tr : list event) : list event :=
  match tr with
  | [] => []
  | Called Renderer meth args kw r :: tr =>
      Called Renderer meth args kw r :: renderer_calls tr
  | _ :: tr => renderer_calls tr
  end.

(** A design the base class accepts: its initialiser returns, whatever the
    renderer name. *)
Definition valid_design (design : value) (e : shared) : Prop :=
  ∀ renderer_name,
    ∃ w', super_init base design renderer_name (World ∅ e) = (Ok tt, w').

(** *** Properties of runs *)

(** What the claim about [_render] says of one [execute_design] call. *)
Definition tentative_name_ok (kw : kwargs) (tr : list event)
    (args : list value) (kw' : kwargs) : Prop :=
  ∃ dn rn, Inherited "design.name" (Ok (VStr dn)) ∈ tr ∧
           Inherited "renderer_name" (Ok (VStr rn)) ∈ tr ∧
    match kw !! "name" with
    | Some name =>
        if is_none name
        then args = [VStr ((dn +:+ "_") +:+ rn)] ∧
             kw' = <["solution_type" := VStr "eigenmode"]> kw
        else kw' = <["solution_type" := VStr "eigenmode"]> (delete "name" kw) ∧
             kw' !! "name" = None ∧
             ∀ s, name = VStr s → args = [VStr ((s +:+ "_") +:+ rn)]
    | None => args = [VStr ((dn +:+ "_") +:+ rn)] ∧
              kw' = <["solution_type" := VStr "eigenmode"]> kw
    end.

Definition quiet (ev : event) : Prop := failure ev = None.

(** An outcome in which an exception raised outside went straight to the
    caller: either no event failed, or the one failed event is the last
    one and the run ended with its exception. *)
Definition propagates {A} (o : outcome A) : Prop :=
  Forall quiet (trace o) ∨
  ∃ pre ev e, trace o = pre ++ [ev] ∧ Forall quiet pre ∧
              failure ev = Some e ∧ res o = Raised e.

Definition propagating {A} (m : M A) : Prop := ∀ w, propagates (m w).

(** The renderer methods the spec lists for the analysis classes. *)
Definition listed_api : list string :=
  ["execute_design"; "initialize_eigenmode"; "analyze_setup";
   "get_convergences"; "set_mode"; "plot_fields"].

(** The renderer methods [EigenmodeSim] calls. *)
Definition used_api : list string := listed_api ++ ["clear_fields"].

Definition calls_only (api : list string) (ev : event) : Prop :=
  ∀ m, renderer_method ev = Some m → m ∈ api.

(** Every renderer call of every run is to a method of [api]. *)
Definition calls_within {A} (api : list string) (m : M A) : Prop :=
  ∀ w, Forall (calls_only api) (trace (m w)).

Definition same_defaults (w w' : world) : Prop :=
  cls_default_setup (env w') = cls_default_setup (env w).

(** No run changes the class attribute. *)
Definition keeps_defaults {A} (m : M A) : Prop :=
  ∀ w, same_defaults w (final (m w)).

(** The code outside the class leaves [EigenmodeSim.default_setup] as it
    is. *)
Definition outside_keeps_defaults : Prop :=
  ∀ c m args kw e,
    cls_default_setup (outside_call c m args kw e).2 = cls_default_setup e.

Definition member_keeps_defaults {T} (f : world → result T * world) : Prop :=
  ∀ w, same_defaults w (f w).2.

Definition base_keeps_defaults : Prop :=
  (∀ d rn, member_keeps_defaults (super_init base d rn)) ∧
  member_keeps_defaults (design_name base) ∧
  member_keeps_defaults (renderer_name base) ∧
  member_keeps_defaults (renderer_initialized base) ∧
  member_keeps_defaults (_initialize_renderer base) ∧
  member_keeps_defaults (setup_sim base).

(** ** Reasoning about runs *)

Lemma bind_Ok {A B} (m : M A) (k : A → M B) w a :
  res (m w) = Ok a →
  (m ≫= k) w =
  Outcome (res (k a (final (m w)))) (final (k a (final (m w))))
          (trace (m w) ++ trace (k a (final (m w)))).
Proof.
  intros H. unfold mbind, M_bind, bind. destruct (m w) as [r w' tr].
  cbn in H. subst r. cbn. by destruct (k a w').
Qed.

Lemma bind_Raised {A B} (m : M A) (k : A → M B) w e :
  res (m w) = Raised e →
  (m ≫= k) w = Outcome (Raised e) (final (m w)) (trace (m w)).
Proof.
  intros H. unfold mbind, M_bind, bind. destruct (m w) as [r w' tr].
  cbn in H. by subst r.
Qed.

(** *** Exceptions go through *)

Lemma propagates_Ok_quiet {A} (o : outcome A) a :
  propagates o → res o = Ok a → Forall quiet (trace o).
Proof.
  intros [H | (pre & ev & e & _ & _ & _ & Hr)] Hres; [done | congruence].
Qed.

Lemma propagating_ret {A} (a : A) : propagating (mret a).
Proof. intros w. left. constructor. Qed.

Lemma propagating_raise {A} e : propagating (@raise A e).
Proof. intros w. left. constructor. Qed.

Lemma propagating_bind {A B} (m : M A) (k : A → M B) :
  propagating m → (∀ a, propagating (k a)) → propagating (m ≫= k).
Proof.
  intros Hm Hk w. destruct (res (m w)) as [a | e] eqn:Hres.
  - rewrite (bind_Ok _ _ _ _ Hres).
    pose proof (propagates_Ok_quiet _ _ (Hm w) Hres) as Hq.
    destruct (Hk a (final (m w))) as [H | (pre & ev & e & Ht & Hpre & Hev & Hr)].
    + left. cbn. by apply Forall_app.
    + right. exists (trace (m w) ++ pre), ev, e. cbn.
      rewrite Ht, (assoc_L (++)). split_and!; [done | by apply Forall_app | done..].
  - rewrite (bind_Raised _ _ _ _ Hres).
    destruct (Hm w) as [H | (pre & ev & e' & Ht & Hpre & Hev & Hr)].
    + by left.
    + right. exists pre, ev, e'. cbn. split_and!; [done..|congruence].
Qed.

Lemma propagating_call c meth args kw : propagating (call c meth args kw).
Proof.
  intros w. unfold call. destruct (outside_call _ _ _ _ _) as [[v | e] e'].
  - left. by repeat constructor.
  - right. by exists [], (Called c meth args kw (Raised e)), e.
Qed.

Lemma propagating_inherited {T} member show (f : world → result T * world) :
  propagating (inherited member show f).
Proof.
  intros w. unfold inherited. destruct (f w) as [[v | e] w'].
  - left. by repeat constructor.
  - right. by exists [], (Inherited member (Raised e)), e.
Qed.

Lemma propagating_getattr name : propagating (getattr name).
Proof. intros w. unfold getattr. left. by destruct (attrs w !! name). Qed.

Lemma propagating_setattr name v : propagating (setattr name v).
Proof. intros w. left. constructor. Qed.

(** What the claim about exceptions says of an outcome. *)
Lemma propagates_spec {A} (o : outcome A) pre ev post e :
  propagates o → trace o = pre ++ ev :: post → failure ev = Some e →
  post = [] ∧ res o = Raised e.
Proof.
  intros [Hq | (pre' & ev' & e' & Ht & Hpre & Hev & Hr)] Htr Hf.
  - rewrite Htr in Hq. apply Forall_app in Hq as [_ Hq].
    apply Forall_cons in Hq as [Hq _]. unfold quiet in Hq. congruence.
  - rewrite Htr in Ht. destruct post as [| ev'' post] using rev_ind.
    + apply app_inj_tail in Ht as [_ ->]. split; [done | congruence].
    + clear IHpost. rewrite app_comm_cons, (assoc_L (++)) in Ht.
      apply app_inj_tail in Ht as [<- _].
      apply Forall_app in Hpre as [_ Hq].
      apply Forall_cons in Hq as [Hq _]. unfold quiet in Hq. congruence.
Qed.

Create HintDb propagating.
#[local] Hint Resolve propagating_ret propagating_raise propagating_call
  propagating_inherited propagating_getattr propagating_setattr : propagating.

Ltac propagate :=
  cbv zeta;
  repeat first
    [ apply propagating_bind; [ | intros ]
    | solve [ eauto with propagating ]
    | case_match ].

Lemma propagating_keyword k v kw : propagating (keyword k v kw).
Proof. unfold keyword. propagate. Qed.

Lemma propagating_add_str a s : propagating (add_str a s).
Proof. unfold add_str. propagate. Qed.

Lemma propagating_iterate v : propagating (iterate v).
Proof. unfold iterate. propagate. Qed.

#[local] Hint Resolve propagating_keyword propagating_add_str
  propagating_iterate : propagating.

Lemma propagating_unpack2 v : propagating (unpack2 v).
Proof. unfold unpack2. propagate. Qed.

Lemma propagating_getitem v i : propagating (getitem v i).
Proof. unfold getitem. propagate. Qed.

Lemma propagating_attribute recv name : propagating (attribute recv name).
Proof. unfold attribute. propagate. Qed.

Lemma propagating_method recv name args kw :
  propagating (method recv name args kw).
Proof. unfold method, attribute. propagate. Qed.

#[local] Hint Resolve propagating_unpack2 propagating_getitem
  propagating_attribute propagating_method : propagating.

Lemma propagating_render kw : propagating (_render kw).
Proof. unfold _render. propagate. Qed.

Lemma propagating_analyze : propagating _analyze.
Proof. unfold _analyze, set_convergence_t, set_convergence_f. propagate. Qed.

#[local] Hint Resolve propagating_render propagating_analyze : propagating.

Lemma propagating_perform op : propagating (perform op).
Proof.
  destruct op; cbn [perform];
    unfold __init__, run_sim, convergence_f, convergence_t, set_convergence_f,
      set_convergence_t, recompute_convergences, plot_convergences,
      plot_fields, clear_fields, iloc_column;
    propagate.
Qed.

(** *** Which renderer methods are called *)

Section CallsWithin.
Variable api : list string.

Lemma calls_within_ret {A} (a : A) : calls_within api (ret a).
Proof. intros w. constructor. Qed.

Lemma calls_within_raise {A} e : calls_within api (@raise A e).
Proof. intros w. constructor. Qed.

Lemma calls_within_bind {A B} (m : M A) (k : A → M B) :
  calls_within api m → (∀ a, calls_within api (k a)) →
  calls_within api (m ≫= k).
Proof.
  intros Hm Hk w. destruct (res (m w)) as [a | e] eqn:Hres.
  - rewrite (bind_Ok _ _ _ _ Hres). cbn. apply Forall_app. split; [apply Hm | apply Hk].
  - rewrite (bind_Raised _ _ _ _ Hres). apply Hm.
Qed.

Lemma calls_within_renderer meth args kw :
  meth ∈ api → calls_within api (call Renderer meth args kw).
Proof.
  intros Hin w. unfold call. destruct (outside_call _ _ _ _ _) as [r e'].
  repeat constructor. intros m [= <-]. done.
Qed.

Lemma calls_within_library meth args kw :
  calls_within api (call Library meth args kw).
Proof.
  intros w. unfold call. destruct (outside_call _ _ _ _ _) as [r e'].
  repeat constructor. intros m [=].
Qed.

Lemma calls_within_inherited {T} member show (f : world → result T * world) :
  calls_within api (inherited member show f).
Proof.
  intros w. unfold inherited. destruct (f w) as [r w'].
  repeat constructor. intros m [=].
Qed.

Lemma calls_within_getattr name : calls_within api (getattr name).
Proof. intros w. unfold getattr. destruct (attrs w !! name); constructor. Qed.

Lemma calls_within_setattr name v : calls_within api (setattr name v).
Proof. intros w. constructor. Qed.

End CallsWithin.

Create HintDb calls.
#[local] Hint Resolve calls_within_ret calls_within_raise calls_within_library
  calls_within_inherited calls_within_getattr calls_within_setattr : calls.
#[local] Hint Extern 1 (calls_within _ (call Renderer _ _ _)) =>
  apply calls_within_renderer; vm_compute; set_solver : calls.

Ltac only_calls :=
  cbv zeta;
  repeat first
    [ apply calls_within_bind; [ | intros ]
    | solve [ eauto with calls ]
    | case_match ].

Lemma calls_within_perform op : calls_within used_api (perform op).
Proof.
  destruct op; cbn [perform];
    unfold __init__, run_sim, recompute_convergences, plot_convergences,
      plot_fields, clear_fields, _render, _analyze, convergence_f,
      convergence_t, set_convergence_f, set_convergence_t, iloc_column,
      unpack2, iterate, add_str, keyword, getitem, method, attribute;
    only_calls.
Qed.

(** *** The class attribute is not written *)

Lemma keeps_defaults_ret {A} (a : A) : keeps_defaults (ret a).
Proof. by intros w. Qed.

Lemma keeps_defaults_raise {A} e : keeps_defaults (@raise A e).
Proof. by intros w. Qed.

Lemma keeps_defaults_bind {A B} (m : M A) (k : A → M B) :
  keeps_defaults m → (∀ a, keeps_defaults (k a)) → keeps_defaults (m ≫= k).
Proof.
  intros Hm Hk w. destruct (res (m w)) as [a | e] eqn:Hres.
  - rewrite (bind_Ok _ _ _ _ Hres). cbn. unfold same_defaults.
    rewrite (Hk a (final (m w))). apply Hm.
  - rewrite (bind_Raised _ _ _ _ Hres). apply Hm.
Qed.

Lemma keeps_defaults_call c meth args kw :
  outside_keeps_defaults → keeps_defaults (call c meth args kw).
Proof.
  intros H w. unfold call, same_defaults. specialize (H c meth args kw (env w)).
  by destruct (outside_call _ _ _ _ _) as [r e'].
Qed.

Lemma keeps_defaults_inherited {T} member show
    (f : world → result T * world) :
  member_keeps_defaults f → keeps_defaults (inherited member show f).
Proof.
  intros H w. unfold inherited. specialize (H w). by destruct (f w) as [r w'].
Qed.

Lemma keeps_defaults_getattr name : keeps_defaults (getattr name).
Proof. intros w. unfold getattr. by destruct (attrs w !! name). Qed.

Lemma keeps_defaults_setattr name v : keeps_defaults (setattr name v).
Proof. by intros w. Qed.

Create HintDb defaults.
#[local] Hint Resolve keeps_defaults_ret keeps_defaults_raise
  keeps_defaults_call keeps_defaults_inherited keeps_defaults_getattr
  keeps_defaults_setattr : defaults.

Ltac keep_defaults :=
  cbv zeta;
  repeat first
    [ apply keeps_defaults_bind; [ | intros ]
    | solve [ eauto with defaults ]
    | case_match ].

Lemma keeps_defaults_perform op :
  outside_keeps_defaults → base_keeps_defaults → keeps_defaults (perform op).
Proof.
  intros Hout (Hinit & Hdn & Hrn & Hri & Hir & Hsim).
  destruct op; cbn [perform];
    unfold __init__, run_sim, recompute_convergences, plot_convergences,
      plot_fields, clear_fields, _render, _analyze, convergence_f,
      convergence_t, set_convergence_f, set_convergence_t, iloc_column,
      unpack2, iterate, add_str, keyword, getitem, method, attribute;
    keep_defaults.
Qed.

(** ** The methods, run symbolically *)

(** Open the monad's operations. *)
Ltac run :=
  unfold mbind, M_bind, bind, inherited, ret, raise, call, getattr, setattr in *.

(** Run a method symbolically: case on every answer from outside and on
    every value inspected, reading back the attributes just assigned. *)
Ltac exec :=
  repeat first
    [ progress rewrite lookup_insert_eq in *
    | case_match; simplify_eq;
      cbn [after res final trace app result_map is_none negb attrs env] in * ].

Ltac find_event :=
  solve [ repeat first [ apply list_elem_of_here | apply list_elem_of_further ] ].

(** *** [_render] *)

Lemma render_calls kw w args kw' r :
  Called Renderer "execute_design" args kw' r ∈ trace (_render kw w) →
  res (_render kw w) = r ∧ tentative_name_ok kw (trace (_render kw w)) args kw'.
Proof.
  unfold tentative_name_ok, _render, add_str, keyword. run.
  destruct (kw !! "name") as [name |] eqn:Hname; [destruct name |].
  all: exec.
  all: intros Hin; apply list_elem_of_In in Hin; cbn [In] in Hin.
  all: repeat (destruct Hin as [Hin | Hin]; try discriminate Hin); try done.
  all: injection Hin as <- <- <-.
  all: (split; [reflexivity |]).
  all: eexists _, _; split; [find_event | split; [find_event |]].
  all: split_and?; try reflexivity.
  all: try (by rewrite lookup_insert_ne, lookup_delete_eq).
  all: try (by intros ? [= <-]).
  all: by intros ? [=].
Qed.

Lemma render_returns kw w :
  (∀ name, kw !! "name" = Some name → name = VNone ∨ ∃ s, name = VStr s) →
  kw !! "solution_type" = None →
  Forall quiet (trace (_render kw w)) →
  ∃ args kw' v,
    Called Renderer "execute_design" args kw' (Ok v) ∈ trace (_render kw w) ∧
    res (_render kw w) = Ok v.
Proof.
  unfold _render, add_str, keyword. intros Hname Hsol Hq. run.
  destruct (kw !! "name") as [name |] eqn:Hkw;
    [destruct (Hname name eq_refl) as [-> | [s ->]] |].
  all: exec.
  all: repeat match goal with
         | H : delete "name" _ !! "solution_type" = _ |- _ =>
             rewrite lookup_delete_ne in H by done
         end; simplify_eq.
  all: repeat match goal with
         | H : Forall quiet (_ :: _) |- _ => apply Forall_cons in H as [? H]
         | H : quiet _ |- _ => by inversion H
         end.
  all: match goal with
       | H : quiet (Called _ _ _ _ ?r) |- _ => destruct r; [| by inversion H]
       end.
  all: eexists _, _, _; split; [find_event | reflexivity].
Qed.

(** The renderer calls of a run of [_render]: none and an exception, or
    the one call of [execute_design], whose answer is the outcome. *)
Lemma render_cases kw w :
  (∃ e, res (_render kw w) = Raised e ∧
        renderer_calls (trace (_render kw w)) = []) ∨
  (∃ tentative kw' r,
     renderer_calls (trace (_render kw w)) =
       [Called Renderer "execute_design" [tentative] kw' r] ∧
     res (_render kw w) = r).
Proof.
  unfold _render, add_str, keyword. run. exec.
  all: first [ left; by eexists | right; by eexists _, _, _ ].
Qed.

(** C9.  [_render]: every call of the renderer's [execute_design] made by a
    run gets, as tentative design name, [name + "_" + renderer_name] when a
    non-None [name] keyword was supplied (and then the keyword [name] is
    removed before the call), and [design.name + "_" + renderer_name]
    otherwise; what the run returns (or raises) is what [execute_design]
    answered.  The call is made whenever nothing outside raises, the
    [name] supplied is a [str] or None, and [solution_type] is not also given. *)
Theorem render_design_name kw w :
  let o := _render kw w in
  (∀ args kw' r, Called Renderer "execute_design" args kw' r ∈ trace o →
     res o = r ∧ tentative_name_ok kw (trace o) args kw')
  ∧ ((∀ name, kw !! "name" = Some name → name = VNone ∨ ∃ s, name = VStr s) →
     kw !! "solution_type" = None →
     Forall quiet (trace o) →
     ∃ args kw' v, Called Renderer "execute_design" args kw' (Ok v) ∈ trace o ∧
                   res o = Ok v).
Proof.
  cbv zeta. split.
  - intros args kw' r. apply render_calls.
  - apply render_returns.
Qed.

(** *** [_analyze] *)

Ltac lookup_insert :=
  repeat first
    [ rewrite lookup_insert_eq | rewrite lookup_insert_ne by done ];
  reflexivity.

Lemma analyze_cases w :
  let o := _analyze w in
  (∃ e, res o = Raised e ∧
        omap renderer_method (trace o) `prefix_of`
          ["initialize_eigenmode"; "analyze_setup"; "get_convergences"]) ∨
  (res o = Ok VNone ∧
   ∃ sim sn r both t f,
     renderer_calls (trace o) =
       [Called Renderer "initialize_eigenmode" [] sim (Ok sn);
        Called Renderer "analyze_setup" [sn] ∅ (Ok r);
        Called Renderer "get_convergences" [] ∅ (Ok both)] ∧
     attrs (final o) !! "setup_name" = Some sn ∧
     attrs (final o) !! "_convergence_t" = Some t ∧
     attrs (final o) !! "_convergence_f" = Some f ∧
     (∀ t' f', both = VTuple [t'; f'] → t = t' ∧ f = f')).
Proof.
  cbv zeta.
  unfold _analyze, set_convergence_t, set_convergence_f, unpack2, iterate.
  run. exec.
  all: try (left; eexists; split; [reflexivity |]; cbn;
            repeat first [ apply prefix_nil | apply prefix_cons ]).
  all: right; split; [reflexivity |]; eexists _, _, _, _, _, _.
  all: split_and!; [reflexivity | lookup_insert.. | ].
  all: by intros ? ? [= <- <-] || by intros ? ? [=].
Qed.

Ltac all_quiet :=
  repeat match goal with
    | H : Forall quiet (_ :: _) |- _ => apply Forall_cons in H as [? H]
    | H : quiet _ |- _ => by inversion H
    end.

Lemma analyze_returns w :
  Forall quiet (trace (_analyze w)) →
  (∀ args kw both,
     Called Renderer "get_convergences" args kw (Ok both) ∈ trace (_analyze w) →
     ∃ t f, both = VTuple [t; f]) →
  res (_analyze w) = Ok VNone.
Proof.
  unfold _analyze, set_convergence_t, set_convergence_f, unpack2, iterate.
  run. intros Hq Hpair. exec.
  all: all_quiet.
  all: try reflexivity.
  all: match goal with
       | H : ∀ _ _ _, _ ∈ _ → _ |- _ =>
           edestruct H as (? & ? & ?); [find_event | simplify_eq]
       end.
Qed.
(** *** [run_sim] *)

Lemma selection_solution_type (a b c d e f g : value) :
  (<["name" := a]> (<["selection" := b]> (<["open_pins" := c]>
    (<["port_list" := d]> (<["jj_to_port" := e]> (<["ignored_jjs" := f]>
      (<["box_plus_buffer" := g]> (∅ : kwargs)))))))) !! "solution_type" = None.
Proof. by rewrite !lookup_insert_ne, lookup_empty. Qed.

Lemma renderer_calls_app tr1 tr2 :
  renderer_calls (tr1 ++ tr2) = renderer_calls tr1 ++ renderer_calls tr2.
Proof.
  induction tr1 as [| [[] ? ? ? ? | ? ?] tr1 IH]; cbn; [done | | done..].
  by rewrite IH.
Qed.

Lemma methods_renderer_calls tr :
  omap renderer_method tr = omap renderer_method (renderer_calls tr).
Proof.
  induction tr as [| [[] ? ? ? ? | ? ?] tr IH]; cbn; [done | | done..].
  by rewrite IH.
Qed.

(** Bring in what is known of the runs of [_render] and [_analyze] met
    while executing [run_sim]. *)
Ltac sub_runs :=
  repeat match goal with
    | H : _render ?kw ?w = Outcome _ _ _ |- _ =>
        let C := fresh "Hrender" in
        pose proof (render_cases kw w) as C; rewrite H in C;
        cbn [res trace final] in C; revert H
    | H : _analyze ?w = Outcome _ _ _ |- _ =>
        let C := fresh "Hanalyze" in
        pose proof (analyze_cases w) as C; cbv zeta in C; rewrite H in C;
        cbn [res trace final] in C; revert H
    end; intros.

Lemma run_sim_methods name components open_terminations port_list
    jj_to_port ignored_jjs box_plus_buffer w :
  omap renderer_method
    (trace (run_sim name components open_terminations port_list jj_to_port
              ignored_jjs box_plus_buffer w)) `prefix_of`
    ["execute_design"; "initialize_eigenmode"; "analyze_setup";
     "get_convergences"].
Proof.
  unfold run_sim.
  match goal with |- context [_render ?sel] => set (selection := sel) end.
  run. exec. all: sub_runs.
  all: cbn [omap list_omap renderer_method]; rewrite ?omap_app, ?app_nil_r.
  all: repeat match goal with
         | H : _ ∨ _ |- _ => destruct H as [H | H]
         | H : ∃ _, _ |- _ => destruct H as [? H]
         | H : _ ∧ _ |- _ => destruct H as [? H]
         end; simplify_eq.
  all: repeat match goal with
         | H : renderer_calls ?tr = _ |- context [omap renderer_method ?tr] =>
             rewrite (methods_renderer_calls tr), H
         end; cbn [omap list_omap renderer_method app].
  all: try (repeat first [ apply prefix_nil | apply prefix_cons ]; fail).
  all: by apply prefix_cons.
Qed.

Ltac split_hyps :=
  repeat match goal with
    | H : _ ∨ _ |- _ => destruct H as [H | H]
    | H : ∃ _, _ |- _ => destruct H as [? H]
    | H : _ ∧ _ |- _ => destruct H as [? H]
    end; simplify_eq.

Lemma run_sim_result name components open_terminations port_list
    jj_to_port ignored_jjs box_plus_buffer w v :
  let o := run_sim name components open_terminations port_list jj_to_port
             ignored_jjs box_plus_buffer w in
  res o = Ok v →
  ∃ tentative kw dn sim sn r both t f,
    renderer_calls (trace o) =
      [Called Renderer "execute_design" [tentative] kw (Ok dn);
       Called Renderer "initialize_eigenmode" [] sim (Ok sn);
       Called Renderer "analyze_setup" [sn] ∅ (Ok r);
       Called Renderer "get_convergences" [] ∅ (Ok both)] ∧
    v = VTuple [dn; sn] ∧
    attrs (final o) !! "setup_name" = Some sn ∧
    attrs (final o) !! "_convergence_t" = Some t ∧
    attrs (final o) !! "_convergence_f" = Some f ∧
    (∀ t' f', both = VTuple [t'; f'] → t = t' ∧ f = f').
Proof.
  cbv zeta. unfold run_sim.
  match goal with |- context [_render ?sel] => set (selection := sel) end.
  run. exec. all: intros [= <-]. all: sub_runs. all: split_hyps.
  all: cbn [renderer_calls]; rewrite ?renderer_calls_app.
  all: repeat match goal with
         | H : renderer_calls ?tr = _ |- context [renderer_calls ?tr] =>
             rewrite H
         end; cbn [app renderer_calls].
  all: eexists _, _, _, _, _, _, _, _, _.
  all: split_and!; [reflexivity | reflexivity | eassumption..].
Qed.

Lemma run_sim_returns name components open_terminations port_list
    jj_to_port ignored_jjs box_plus_buffer w :
  let o := run_sim name components open_terminations port_list jj_to_port
             ignored_jjs box_plus_buffer w in
  Forall quiet (trace o) →
  (name = VNone ∨ ∃ s, name = VStr s) →
  (∀ args kw both,
     Called Renderer "get_convergences" args kw (Ok both) ∈ trace o →
     ∃ t f, both = VTuple [t; f]) →
  ∃ v, res o = Ok v.
Proof.
  cbv zeta. unfold run_sim.
  match goal with |- context [_render ?sel] => set (selection := sel) end.
  intros Hq Hname Hpair.
  assert (Hsel : ∀ n, selection !! "name" = Some n → n = VNone ∨ ∃ s, n = VStr s).
  { intros n. unfold selection. rewrite lookup_insert_eq. by intros [= <-]. }
  assert (Hsol : selection !! "solution_type" = None)
    by apply selection_solution_type.
  clearbody selection. run. exec.
  all: try by eexists.
  all: exfalso.
  all: repeat match goal with
         | H : Forall quiet (_ :: _) |- _ => apply Forall_cons in H as [? H]
         | H : Forall quiet (_ ++ _) |- _ => apply Forall_app in H as [? H]
         | H : quiet _ |- _ => by inversion H
         end.
  all: try match goal with
         | H : _render ?kw ?w = Outcome (Raised _) _ _ |- _ =>
             destruct (render_returns kw w Hsel Hsol) as (? & ? & ? & _ & Hres);
               [ by rewrite H | rewrite H in Hres; discriminate Hres ]
         end.
  all: match goal with
       | H : _analyze ?w = Outcome ?r _ _ |- _ =>
           let R := fresh "Hr" in
           assert (res (_analyze w) = Ok VNone) as R;
             [ apply analyze_returns; rewrite H; cbn [trace];
               [ assumption
               | intros ? ? ? Hin; eapply Hpair; rewrite ?app_nil_r;
                 repeat apply list_elem_of_further;
                 apply elem_of_app; right; exact Hin ]
             | rewrite H in R; cbn [res] in R ]
       end.
  all: try discriminate.
  all: sub_runs; split_hyps.
Qed.

(** C1.  [run_sim] calls the renderer's [execute_design],
    [initialize_eigenmode], [analyze_setup] and [get_convergences], in that
    order and nothing else on the renderer: the methods called are always a
    prefix of these four (an exception ends the sequence), and a run that
    returns has made exactly the four calls, has stored the two fetched
    tables in [convergence_t] and [convergence_f], and returns the pair of
    the design name [execute_design] answered and the setup name
    [initialize_eigenmode] answered.  The run does return whenever nothing
    outside raises, [name] is a [str] or None and [get_convergences]
    answers a pair. *)
Theorem run_sim_sequence name components open_terminations port_list
    jj_to_port ignored_jjs box_plus_buffer w :
  let o := run_sim name components open_terminations port_list jj_to_port
             ignored_jjs box_plus_buffer w in
  omap renderer_method (trace o) `prefix_of`
    ["execute_design"; "initialize_eigenmode"; "analyze_setup";
     "get_convergences"]
  ∧ (∀ v, res o = Ok v →
       ∃ tentative kw dn sim sn r both t f,
         renderer_calls (trace o) =
           [Called Renderer "execute_design" [tentative] kw (Ok dn);
            Called Renderer "initialize_eigenmode" [] sim (Ok sn);
            Called Renderer "analyze_setup" [sn] ∅ (Ok r);
            Called Renderer "get_convergences" [] ∅ (Ok both)] ∧
         v = VTuple [dn; sn] ∧
         attrs (final o) !! "setup_name" = Some sn ∧
         attrs (final o) !! "_convergence_t" = Some t ∧
         attrs (final o) !! "_convergence_f" = Some f ∧
         (∀ t' f', both = VTuple [t'; f'] → t = t' ∧ f = f'))
  ∧ (Forall quiet (trace o) →
     (name = VNone ∨ ∃ s, name = VStr s) →
     (∀ args kw both,
        Called Renderer "get_convergences" args kw (Ok both) ∈ trace o →
        ∃ t f, both = VTuple [t; f]) →
     ∃ v, res o = Ok v).
Proof.
  cbv zeta. split_and!.
  - apply run_sim_methods.
  - intros v. apply run_sim_result.
  - apply run_sim_returns.
Qed.

(** *** The remaining claims on [EigenmodeSim] *)

(** C2.  An exception raised by a renderer method during an operation
    ([run_sim], [recompute_convergences], [plot_fields], [clear_fields]
    and every other one) reaches the caller unchanged: the failed call is
    the last thing the operation does, and the operation ends with that
    very exception. *)
Theorem renderer_exception_propagates op w pre meth args kw e post :
  trace (perform op w) = pre ++ Called Renderer meth args kw (Raised e) :: post →
  post = [] ∧ res (perform op w) = Raised e.
Proof.
  intros Htrace.
  eapply propagates_spec; [apply propagating_perform | exact Htrace | done].
Qed.

(** C4, as amended.  Every call an operation of the class makes on
    [self.renderer] is to one of [execute_design], [initialize_eigenmode],
    [analyze_setup], [get_convergences], [set_mode], [plot_fields] or
    [clear_fields]. *)
Theorem renderer_calls_in_used_api op w ev meth :
  ev ∈ trace (perform op w) → renderer_method ev = Some meth →
  meth ∈ used_api.
Proof.
  intros Hin Hmeth.
  pose proof (calls_within_perform op w) as Hall.
  rewrite Forall_forall in Hall. by apply (Hall ev).
Qed.

(** C6.  Whatever operations are performed on an instance, the class
    attribute [default_setup] stays as it was, provided the code outside
    the class (renderer, libraries, inherited members) leaves it alone: no
    operation of the class writes it. *)
Theorem default_setup_static ops w :
  outside_keeps_defaults → base_keeps_defaults →
  cls_default_setup (env (perform_all ops w)) = cls_default_setup (env w).
Proof.
  intros Hout Hbase. revert w.
  induction ops as [| op ops IH]; intros w; [done |].
  change (perform_all (op :: ops) w)
    with (perform_all ops (final (perform op w))).
  rewrite IH. by apply keeps_defaults_perform.
Qed.

(** C3.  [default_setup['sim']] holds exactly the documented defaults, and
    still does after an instance is constructed (the inherited initialiser
    being one that leaves the class attribute alone). *)
Theorem default_setup_sim :
  sim_defaults default_setup ∧
  ∀ design renderer_name e,
    cls_default_setup e = default_setup →
    (∀ d rn, member_keeps_defaults (super_init base d rn)) →
    sim_defaults
      (cls_default_setup (env (final (instantiate design renderer_name e)))).
Proof.
  assert (Hlit : sim_defaults default_setup).
  { eexists _, _. by split_and!. }
  split; [done |]. intros design renderer_name e He Hinit.
  (* [__init__] uses the inherited initialiser and nothing else outside *)
  assert (Hk : keeps_defaults (__init__ design (default "hfss" renderer_name))).
  { unfold __init__. keep_defaults. }
  unfold instantiate. rewrite (Hk (World ∅ e)). cbn. by rewrite He.
Qed.

(** C7.  For a valid design, [EigenmodeSim(design)] and
    [EigenmodeSim(design, renderer_name)] return without an exception, and
    then [setup_name], [convergence_t] and [convergence_f] are None. *)
Theorem instantiate_does_not_raise design renderer_name e :
  valid_design design e →
  let o := instantiate design renderer_name e in
  res o = Ok VNone ∧
  attrs (final o) !! "setup_name" = Some VNone ∧
  res (convergence_t (final o)) = Ok VNone ∧
  res (convergence_f (final o)) = Ok VNone.
Proof.
  intros Hvalid. cbv zeta.
  destruct (Hvalid (default "hfss" renderer_name)) as [w' Hinit].
  unfold instantiate, __init__, convergence_t, convergence_f. run.
  rewrite Hinit. cbn [after res final trace attrs].
  split_and!; [done | lookup_insert | |].
  - by rewrite lookup_insert_ne, lookup_insert_eq.
  - by rewrite lookup_insert_eq.
Qed.

(** C8.  Assigning [convergence_f] (resp. [convergence_t]) and reading it
    back gives the value assigned, and reading the other table gives what
    it gave before the assignment. *)
Theorem convergence_round_trip v w :
  let wf := final (set_convergence_f v w) in
  let wt := final (set_convergence_t v w) in
  res (set_convergence_f v w) = Ok VNone ∧
  res (convergence_f wf) = Ok v ∧
  res (convergence_t wf) = res (convergence_t w) ∧
  res (set_convergence_t v w) = Ok VNone ∧
  res (convergence_t wt) = Ok v ∧
  res (convergence_f wt) = res (convergence_f w).
Proof.
  cbv zeta. unfold set_convergence_f, set_convergence_t, convergence_f,
    convergence_t. run. cbn [after res final trace attrs].
  rewrite !lookup_insert_eq, !lookup_insert_ne by done.
  split_and!; try done; by destruct (attrs w !! _).
Qed.

(** C10.  With a [fig] that is not None, [plot_convergences] makes no call
    at all (no figure, no axis, no plot) and changes nothing; it returns
    None once the two tables are there.  The [_display] flag changes
    nothing, with or without [fig]. *)
Theorem plot_convergences_given_fig t f fig _display w :
  is_none fig = false →
  let o := plot_convergences t f fig _display w in
  trace o = [] ∧ final o = w ∧
  (is_Some (attrs w !! "_convergence_t") →
   is_Some (attrs w !! "_convergence_f") → res o = Ok VNone) ∧
  (∀ fig' d', plot_convergences t f fig' d' = plot_convergences t f fig' _display).
Proof.
  intros Hfig. cbv zeta. split_and!; [| | | done].
  all: unfold plot_convergences, convergence_t, convergence_f; rewrite Hfig.
  all: run.
  - by exec.
  - by exec.
  - intros [vt Ht] [vf Hf]. by exec.
Qed.

(** ** Further properties of [EigenmodeSim] *)

(** *** [recompute_convergences] *)

(** X1.  [recompute_convergences]: a run that returns has asked the renderer
    once, for [get_convergences(variation)], has stored the two tables and
    touched no other attribute, and returns None. *)
Theorem recompute_convergences_stores variation w v :
  res (recompute_convergences variation w) = Ok v →
  v = VNone ∧
  ∃ both t f,
    renderer_calls (trace (recompute_convergences variation w)) =
      [Called Renderer "get_convergences" [variation] ∅ (Ok both)] ∧
    attrs (final (recompute_convergences variation w)) =
      <["_convergence_f" := f]> (<["_convergence_t" := t]> (attrs w)) ∧
    (∀ t' f', both = VTuple [t'; f'] → t = t' ∧ f = f').
Proof.
  unfold recompute_convergences, set_convergence_t, set_convergence_f,
    unpack2, iterate.
  run. exec. all: try discriminate 1.
  all: intros [= <-]; split; [reflexivity |].
  all: eexists _, _, _; split_and!; [reflexivity | reflexivity |].
  all: by intros ? ? [= <- <-] || by intros ? ? [=].
Qed.

(** X2.  [recompute_convergences]: a run that raises has assigned nothing, both
    tables and every other attribute are as before. *)
Theorem recompute_convergences_failure variation w e :
  res (recompute_convergences variation w) = Raised e →
  attrs (final (recompute_convergences variation w)) = attrs w.
Proof.
  unfold recompute_convergences, set_convergence_t, set_convergence_f,
    unpack2, iterate.
  run. exec. all: try discriminate 1. all: done.
Qed.

(** X3.  [recompute_convergences]: when the renderer answers a tuple that is
    not a pair (three values, say), the run raises [ValueError] and the
    tables are kept. *)
Theorem recompute_convergences_arity variation w items e' :
  outside_call Renderer "get_convergences" [variation] ∅ (env w)
    = (Ok (VTuple items), e') →
  length items ≠ 2%nat →
  (∃ detail, res (recompute_convergences variation w)
             = Raised (ValueError detail)) ∧
  attrs (final (recompute_convergences variation w)) = attrs w.
Proof.
  intros Hcall Hlen.
  unfold recompute_convergences, set_convergence_t, set_convergence_f,
    unpack2, iterate.
  run. rewrite Hcall. cbn [after res final trace app attrs env].
  destruct items as [| a [| b [| c items]]]; cbn [after res final trace app attrs env];
    try done; by split; [eexists |].
Qed.
(** *** [_analyze] *)

(** X4.  [_analyze]: when the analysis raises (a failing solver, a wrong answer
    of [get_convergences]), both tables are the ones of before, while
    [setup_name] already is the setup [initialize_eigenmode] answered, made
    from [self.setup.sim]. *)
Theorem analyze_failure_state w sim w0 e :
  setup_sim base w = (Ok sim, w0) →
  res (_analyze w) = Raised e →
  attrs (final (_analyze w)) !! "_convergence_t" = attrs w0 !! "_convergence_t" ∧
  attrs (final (_analyze w)) !! "_convergence_f" = attrs w0 !! "_convergence_f" ∧
  (∀ kw sn,
     Called Renderer "initialize_eigenmode" [] kw (Ok sn) ∈ trace (_analyze w) →
     kw = sim ∧ attrs (final (_analyze w)) !! "setup_name" = Some sn).
Proof.
  intros Hsim.
  unfold _analyze, set_convergence_t, set_convergence_f, unpack2, iterate.
  run. rewrite Hsim. exec.
  all: try discriminate 1.
  all: intros _; split_and!;
    [ by rewrite ?lookup_insert_ne by done
    | by rewrite ?lookup_insert_ne by done
    | intros kw sn Hin; apply list_elem_of_In in Hin; cbn [In] in Hin ].
  all: repeat (destruct Hin as [Hin | Hin]; try discriminate Hin); try done.
  all: injection Hin as <- <-; split; [reflexivity |].
  all: by rewrite ?lookup_insert_eq.
Qed.
(** *** [_render] and [run_sim] *)

(** [_analyze] never calls [execute_design]. *)
Lemma analyze_api : calls_within
  ["initialize_eigenmode"; "analyze_setup"; "get_convergences"] _analyze.
Proof.
  unfold _analyze, set_convergence_t, set_convergence_f, unpack2, iterate.
  only_calls.
Qed.

Lemma analyze_no_execute_design w args kw r :
  Called Renderer "execute_design" args kw r ∉ trace (_analyze w).
Proof.
  intros Hin. pose proof (analyze_api w) as Hall.
  rewrite Forall_forall in Hall. specialize (Hall _ Hin _ eq_refl).
  apply list_elem_of_In in Hall. cbn in Hall. intuition discriminate.
Qed.

Lemma selection_keywords name components open_terminations port_list
    jj_to_port ignored_jjs box_plus_buffer tr args kw :
  tentative_name_ok
    (<["name" := name]>
       (<["selection" := components]>
          (<["open_pins" := open_terminations]>
             (<["port_list" := port_list]>
                (<["jj_to_port" := jj_to_port]>
                   (<["ignored_jjs" := ignored_jjs]>
                      (<["box_plus_buffer" := box_plus_buffer]> ∅)))))))
    tr args kw →
  kw = list_to_map
         ([("solution_type", VStr "eigenmode"); ("selection", components);
           ("open_pins", open_terminations); ("port_list", port_list);
           ("jj_to_port", jj_to_port); ("ignored_jjs", ignored_jjs);
           ("box_plus_buffer", box_plus_buffer)]
          ++ if is_none name then [("name", VNone)] else []).
Proof.
  intros (dn & rn & _ & _ & Hkw). rewrite lookup_insert_eq in Hkw.
  destruct (is_none name) eqn:Hname.
  - destruct name; try discriminate Hname.
    destruct Hkw as [_ ->]. vm_compute. reflexivity.
  - destruct Hkw as (-> & _). vm_compute. reflexivity.
Qed.

(** X5.  [run_sim]: the keywords [execute_design] receives.  [components] goes
    as [selection] and [open_terminations] as [open_pins], the other
    arguments under their own names, with [solution_type='eigenmode'];
    [name] is forwarded only when it is None (as [name=None]). *)
Theorem run_sim_keywords name components open_terminations port_list
    jj_to_port ignored_jjs box_plus_buffer w args kw r :
  Called Renderer "execute_design" args kw r
    ∈ trace (run_sim name components open_terminations port_list jj_to_port
               ignored_jjs box_plus_buffer w) →
  kw = list_to_map
         ([("solution_type", VStr "eigenmode"); ("selection", components);
           ("open_pins", open_terminations); ("port_list", port_list);
           ("jj_to_port", jj_to_port); ("ignored_jjs", ignored_jjs);
           ("box_plus_buffer", box_plus_buffer)]
          ++ if is_none name then [("name", VNone)] else []).
Proof.
  match goal with |- _ → _ = ?m => set (expected := m) end.
  unfold run_sim.
  match goal with |- context [_render ?sel] => set (selection := sel) end.
  run. exec.
  all: intros Hin.
  all: repeat first
         [ apply elem_of_cons in Hin as [Hin | Hin]; [discriminate Hin |]
         | apply elem_of_app in Hin as [Hin | Hin]
         | apply elem_of_nil in Hin; destruct Hin ].
  all: try (exfalso;
            match goal with
            | Ha : _analyze ?w0 = Outcome _ _ ?tr, H : _ ∈ ?tr |- _ =>
                eapply (analyze_no_execute_design w0); rewrite Ha; exact H
            end).
  all: match goal with
       | Hr : _render ?sel ?w0 = Outcome _ _ ?tr, H : _ ∈ ?tr |- _ =>
           destruct (render_calls sel w0 args kw r) as [_ Hok];
           [by rewrite Hr |]
       end.
  all: exact (selection_keywords _ _ _ _ _ _ _ _ _ _ Hok).
Qed.

Lemma render_bad_name kw w name :
  kw !! "name" = Some name →
  match name with VNone | VStr _ | VObj _ => False | _ => True end →
  (∀ c meth args kw' r, Called c meth args kw' r ∉ trace (_render kw w)) ∧
  (∀ r, Inherited "renderer_name" r ∉ trace (_render kw w)) ∧
  ∃ e, res (_render kw w) = Raised e ∧
       (Forall quiet (trace (_render kw w)) → ∃ detail, e = TypeError detail).
Proof.
  intros Hname Hkind. unfold _render, add_str, keyword. run.
  rewrite Hname. destruct name; try done.
  all: exec.
  all: split_and!;
    [ intros ? ? ? ? ? Hin | intros ? Hin | eexists; split; [reflexivity |] ].
  all: try (apply list_elem_of_In in Hin; cbn [In] in Hin;
            by repeat destruct Hin as [Hin | Hin]).
  all: try by eexists.
  all: intros Hq; apply Forall_cons in Hq as [Hq _]; by inversion Hq.
Qed.

(** X7.  [_render]: a [name] that is neither None, a [str] nor an object of a
    library (a number, a tuple, a list, a dictionary) cannot be joined with
    ["_"]: the run raises before the renderer name is read, and nothing
    outside is called.  When [design.name] could be read the exception is
    a [TypeError]. *)
Theorem render_rejects_name kw w name :
  kw !! "name" = Some name →
  match name with VNone | VStr _ | VObj _ => False | _ => True end →
  (∀ c meth args kw' r, Called c meth args kw' r ∉ trace (_render kw w)) ∧
  (∀ r, Inherited "renderer_name" r ∉ trace (_render kw w)) ∧
  ∃ e, res (_render kw w) = Raised e ∧
       (Forall quiet (trace (_render kw w)) → ∃ detail, e = TypeError detail).
Proof. apply render_bad_name. Qed.

Lemma no_call_no_renderer_call tr :
  (∀ c meth args kw r, Called c meth args kw r ∉ tr) → renderer_calls tr = [].
Proof.
  induction tr as [| ev tr IH]; intros Hno; [reflexivity |].
  destruct ev as [c meth args kw r | member r].
  - destruct (Hno c meth args kw r). apply list_elem_of_here.
  - cbn. apply IH. intros c meth args kw r' Hin.
    eapply Hno, list_elem_of_further, Hin.
Qed.

(** X8.  [run_sim] with such a [name] (a number, a list, ...): the renderer,
    started if needed, receives no call at all, and the run raises. *)
Theorem run_sim_rejects_name name components open_terminations port_list
    jj_to_port ignored_jjs box_plus_buffer w :
  match name with VNone | VStr _ | VObj _ => False | _ => True end →
  let o := run_sim name components open_terminations port_list jj_to_port
             ignored_jjs box_plus_buffer w in
  renderer_calls (trace o) = [] ∧ ∃ e, res o = Raised e.
Proof.
  intros Hkind. cbv zeta. unfold run_sim.
  match goal with |- context [_render ?sel] => set (selection := sel) end.
  assert (Hbad : ∀ w0, renderer_calls (trace (_render selection w0)) = [] ∧
                       ∃ e, res (_render selection w0) = Raised e).
  { intros w0.
    destruct (render_bad_name selection w0 name (lookup_insert_eq _ _ _) Hkind)
      as (Hno & _ & e & Hres & _).
    split; [by apply no_call_no_renderer_call | by eexists]. }
  clearbody selection. clear Hkind. run. exec.
  all: try match goal with
         | Hr : _render ?sel ?w0 = Outcome _ _ _ |- _ =>
             destruct (Hbad w0) as (Hno & e0 & Hres);
             rewrite Hr in Hno, Hres; cbn [res trace] in Hno, Hres;
             try discriminate Hres
         end.
  all: split; [| by eexists].
  all: cbn [renderer_calls]; rewrite ?renderer_calls_app, ?app_nil_r;
    try reflexivity.
  all: assumption.
Qed.

(** X9.  [_render]: a selection that has a keyword [solution_type] of its own
    clashes with the one [_render] passes: the renderer is not called and
    the run raises, with a [TypeError] when nothing outside has raised. *)
Theorem render_solution_type_clash kw w v :
  kw !! "solution_type" = Some v →
  renderer_calls (trace (_render kw w)) = [] ∧
  ∃ e, res (_render kw w) = Raised e ∧
       (Forall quiet (trace (_render kw w)) → ∃ detail, e = TypeError detail).
Proof.
  intros Hsol.
  assert (Hdel : delete "name" kw !! "solution_type" = Some v)
    by by rewrite lookup_delete_ne.
  unfold _render, add_str, keyword. run.
  destruct (kw !! "name") as [name |]; [destruct name |].
  all: cbn [is_none]; rewrite ?Hsol, ?Hdel.
  all: exec.
  all: split; [reflexivity | eexists; split; [reflexivity |] ].
  all: try by eexists.
  all: intros Hq.
  all: repeat match goal with
         | H : Forall quiet (_ :: _) |- _ => apply Forall_cons in H as [? H]
         | H : quiet _ |- _ => by inversion H
         end.
Qed.

(** *** [plot_fields] *)

(** X10.  [plot_fields]: the renderer's [set_mode(eigenmode, setup_name)] comes
    first, then its [plot_fields] with the positional and keyword
    arguments as given and [object_name] as one more keyword; a run that
    returns has made exactly these two calls and returns what the
    renderer's [plot_fields] answered.  No attribute of the instance is
    assigned. *)
Theorem plot_fields_calls object_name eigenmode args kw w :
  let o := plot_fields object_name eigenmode args kw w in
  omap renderer_method (trace o) `prefix_of` ["set_mode"; "plot_fields"] ∧
  attrs (final o) = attrs w ∧
  ∀ v, res o = Ok v →
    ∃ sn r, attrs w !! "setup_name" = Some sn ∧
      trace o =
        [Called Renderer "set_mode" [eigenmode; sn] ∅ (Ok r);
         Called Renderer "plot_fields" args
           (<["object_name" := object_name]> kw) (Ok v)].
Proof.
  cbv zeta. unfold plot_fields, keyword. run. exec.
  all: split_and!; try reflexivity.
  all: try (cbn; solve [ repeat first [ apply prefix_nil | apply prefix_cons ] ]).
  all: intros ? [= <-]. all: by eexists _, _.
Qed.

(** The inherited members [_render] and [_analyze] use. *)
Lemma render_inherited kw w member r :
  Inherited member r ∈ trace (_render kw w) →
  member = "design.name" ∨ member = "renderer_name".
Proof.
  unfold _render, add_str, keyword. run. exec.
  all: intros Hin; apply list_elem_of_In in Hin; cbn [In] in Hin.
  all: repeat destruct Hin as [Hin | Hin]; try done.
  all: injection Hin as <- _; auto.
Qed.

Lemma analyze_inherited w member r :
  Inherited member r ∈ trace (_analyze w) → member = "setup.sim".
Proof.
  unfold _analyze, set_convergence_t, set_convergence_f, unpack2, iterate.
  run. exec.
  all: intros Hin; apply list_elem_of_In in Hin; cbn [In] in Hin.
  all: repeat destruct Hin as [Hin | Hin]; try done.
  all: by injection Hin as <- _.
Qed.

(** An event of a member [_render] and [_analyze] do not use is not in the
    trace of [run_sim] beyond its first steps. *)
Ltac not_inherited H :=
  repeat first
    [ apply elem_of_cons in H as [H | H]; [discriminate H |]
    | apply elem_of_app in H as [H | H]
    | apply elem_of_nil in H; destruct H ];
  try match goal with
    | Hr : _render ?sel ?w0 = Outcome _ _ ?tr, H' : Inherited _ _ ∈ ?tr |- _ =>
        rewrite <- (f_equal trace Hr : trace (_render sel w0) = tr) in H';
        by destruct (render_inherited _ _ _ _ H')
    | Ha : _analyze ?w0 = Outcome _ _ ?tr, H' : Inherited _ _ ∈ ?tr |- _ =>
        rewrite <- (f_equal trace Ha : trace (_analyze w0) = tr) in H';
        by pose proof (analyze_inherited _ _ _ H')
    end.

(** X6.  [run_sim]: the renderer is started first, and only when needed.  Every
    call on the renderer comes after [renderer_initialized] answered True,
    or after it answered False and [_initialize_renderer] returned; and
    when it answered True, [_initialize_renderer] is not used at all. *)
Theorem run_sim_initializes_first name components open_terminations port_list
    jj_to_port ignored_jjs box_plus_buffer w :
  let o := run_sim name components open_terminations port_list jj_to_port
             ignored_jjs box_plus_buffer w in
  (∀ pre meth args kw r post,
     trace o = pre ++ Called Renderer meth args kw r :: post →
     Inherited "renderer_initialized" (Ok (VBool true)) ∈ pre ∨
     (Inherited "renderer_initialized" (Ok (VBool false)) ∈ pre ∧
      Inherited "_initialize_renderer" (Ok VNone) ∈ pre)) ∧
  (Inherited "renderer_initialized" (Ok (VBool true)) ∈ trace o →
   ∀ r, Inherited "_initialize_renderer" r ∉ trace o).
Proof.
  cbv zeta. unfold run_sim.
  match goal with |- context [_render ?sel] => set (selection := sel) end.
  clearbody selection. run. exec.
  all: try match goal with
           | H : negb ?a = _ |- _ => destruct a; try discriminate H
           end.
  all: split;
    [ intros pre meth args kw r post Htr;
      destruct pre as [| ev1 pre]; [discriminate Htr |];
      injection Htr as <- Htr;
      try (destruct pre as [| ev2 pre]; [discriminate Htr |];
           injection Htr as <- Htr);
      try (destruct pre; discriminate Htr);
      first [ left; apply list_elem_of_here
            | right; split;
              [ apply list_elem_of_here
              | apply list_elem_of_further, list_elem_of_here ] ]
    | intros Hin r Hinit; not_inherited Hin; not_inherited Hinit ].
Qed.

(** *** [plot_convergences] *)

(** A property of every event of every run. *)
Definition always {A} (Q : event → Prop) (m : M A) : Prop :=
  ∀ w, Forall Q (trace (m w)).

(** No run returns. *)
Definition never_returns {A} (m : M A) : Prop :=
  ∀ w, ∃ e, res (m w) = Raised e.

(** No run assigns an attribute of the instance. *)
Definition keeps_attrs {A} (m : M A) : Prop :=
  ∀ w, attrs (final (m w)) = attrs w.

(** The library function an event calls, if it is a call into a library. *)
Definition library_function (ev : event) : option string :=
  match ev with
  | Called Library f _ _ _ => Some f
  | _ => None
  end.

(** A call into a library, of one of the functions [fs]. *)
Definition library_call (fs : list string) (ev : event) : Prop :=
  ∃ f, library_function ev = Some f ∧ f ∈ fs.

(** Operations that only look: reading a table, plotting, clearing. *)
Definition observer (op : operation) : bool :=
  match op with
  | GetConvergenceF | GetConvergenceT | PlotConvergences _ _ _ _
  | PlotFields _ _ _ _ | ClearFields _ => true
  | _ => false
  end.

Lemma bind_known {A B} (m : M A) (k : A → M B) w a :
  m w = Outcome (Ok a) w [] → (m ≫= k) w = k a w.
Proof.
  intros H. unfold mbind, M_bind, bind. rewrite H. by destruct (k a w).
Qed.

Lemma never_returns_raise {A} e : never_returns (@raise A e).
Proof. intros w. by eexists. Qed.

Lemma never_returns_bind_l {A B} (m : M A) (k : A → M B) :
  never_returns m → never_returns (m ≫= k).
Proof.
  intros Hm w. destruct (Hm w) as [e He].
  rewrite (bind_Raised _ _ _ _ He). by eexists.
Qed.

Lemma never_returns_bind_r {A B} (m : M A) (k : A → M B) :
  (∀ a, never_returns (k a)) → never_returns (m ≫= k).
Proof.
  intros Hk w. destruct (res (m w)) as [a | e] eqn:Hres.
  - rewrite (bind_Ok _ _ _ _ Hres). apply Hk.
  - rewrite (bind_Raised _ _ _ _ Hres). by eexists.
Qed.

(** A run that reaches something that cannot return. *)
Ltac stuck :=
  cbn [is_none attribute];
  first [ apply never_returns_raise
        | apply never_returns_bind_l; stuck
        | apply never_returns_bind_r; intros; stuck ].

Section Always.
Variable Q : event → Prop.

Lemma always_ret {A} (a : A) : always Q (ret a).
Proof. intros w. constructor. Qed.

Lemma always_raise {A} e : always Q (@raise A e).
Proof. intros w. constructor. Qed.

Lemma always_bind {A B} (m : M A) (k : A → M B) :
  always Q m → (∀ a, always Q (k a)) → always Q (m ≫= k).
Proof.
  intros Hm Hk w. destruct (res (m w)) as [a | e] eqn:Hres.
  - rewrite (bind_Ok _ _ _ _ Hres). cbn. apply Forall_app.
    split; [apply Hm | apply Hk].
  - rewrite (bind_Raised _ _ _ _ Hres). apply Hm.
Qed.

Lemma always_bind_stuck {A B} (m : M A) (k : A → M B) :
  never_returns m → always Q m → always Q (m ≫= k).
Proof.
  intros Hn Hm w. destruct (Hn w) as [e He].
  rewrite (bind_Raised _ _ _ _ He). apply Hm.
Qed.

Lemma always_call c meth args kw :
  (∀ r, Q (Called c meth args kw r)) → always Q (call c meth args kw).
Proof.
  intros H w. unfold call. destruct (outside_call _ _ _ _ _) as [r e'].
  by repeat constructor.
Qed.

Lemma always_getattr name : always Q (getattr name).
Proof. intros w. unfold getattr. destruct (attrs w !! name); constructor. Qed.

End Always.

Lemma library_call_here fs f args kw r :
  f ∈ fs → library_call fs (Called Library f args kw r).
Proof. intros Hin. by exists f. Qed.

Create HintDb always.
#[local] Hint Resolve always_ret always_raise always_getattr : always.
#[local] Hint Extern 1 (always (library_call _) (call Library _ _ _)) =>
  apply always_call; intros; apply library_call_here; vm_compute;
  set_solver : always.

Ltac every_event :=
  cbv zeta; cbn [is_none attribute];
  repeat first
    [ solve [ eauto with always ]
    | apply always_bind_stuck; [ solve [ stuck ] | ]
    | apply always_bind; [ | intros ]
    | case_match ].

Lemma keeps_attrs_ret {A} (a : A) : keeps_attrs (ret a).
Proof. by intros w. Qed.

Lemma keeps_attrs_raise {A} e : keeps_attrs (@raise A e).
Proof. by intros w. Qed.

Lemma keeps_attrs_bind {A B} (m : M A) (k : A → M B) :
  keeps_attrs m → (∀ a, keeps_attrs (k a)) → keeps_attrs (m ≫= k).
Proof.
  intros Hm Hk w. destruct (res (m w)) as [a | e] eqn:Hres.
  - rewrite (bind_Ok _ _ _ _ Hres). cbn. by rewrite Hk.
  - rewrite (bind_Raised _ _ _ _ Hres). apply Hm.
Qed.

Lemma keeps_attrs_call c meth args kw : keeps_attrs (call c meth args kw).
Proof.
  intros w. unfold call. by destruct (outside_call _ _ _ _ _) as [r e'].
Qed.

Lemma keeps_attrs_getattr name : keeps_attrs (getattr name).
Proof. intros w. unfold getattr. by destruct (attrs w !! name). Qed.

Create HintDb attrs.
#[local] Hint Resolve keeps_attrs_ret keeps_attrs_raise keeps_attrs_call
  keeps_attrs_getattr : attrs.

Ltac keep_attrs :=
  cbv zeta;
  repeat first
    [ apply keeps_attrs_bind; [ | intros ]
    | solve [ eauto with attrs ]
    | case_match ].

Lemma keeps_attrs_observer op : observer op = true → keeps_attrs (perform op).
Proof.
  destruct op; try discriminate 1; intros _; cbn [perform];
    unfold plot_convergences, plot_fields, clear_fields, convergence_f,
      convergence_t, iloc_column, keyword, getitem, method, attribute;
    keep_attrs.
Qed.

(** The functions of the plotting libraries [plot_convergences] uses. *)
Definition plotting : list string :=
  ["plt.figure"; "mpl.gridspec.GridSpec"; "__getitem__"; "add_subplot";
   "twinx"; "plot_convergence_f_vspass"; "iloc"; "plot_convergence_max_df";
   "plot_convergence_solved_elem"; "plot_convergence_maxdf_vs_sol";
   "tight_layout"].

(** X12.  [plot_convergences]: whatever its arguments, everything it does
    outside itself is a call into the plotting libraries; it never calls
    the renderer and uses no inherited member. *)
Theorem plot_convergences_libraries_only t f fig _display w ev :
  ev ∈ trace (plot_convergences t f fig _display w) →
  library_call plotting ev.
Proof.
  revert ev. apply Forall_forall. revert w.
  change (always (library_call plotting) (plot_convergences t f fig _display)).
  unfold plot_convergences, convergence_f, convergence_t, iloc_column,
    getitem, method, attribute.
  every_event.
Qed.

(** X14.  Reading a table, plotting and clearing never assign an attribute of
    the instance: after any sequence of these operations, whether they
    returned or raised, [setup_name] and both tables are as before. *)
Theorem observers_leave_instance ops w :
  Forall (λ op, observer op = true) ops →
  attrs (perform_all ops w) = attrs w.
Proof.
  intros Hops. revert w.
  induction Hops as [| op ops Hop _ IH]; intros w; [reflexivity |].
  change (perform_all (op :: ops) w)
    with (perform_all ops (final (perform op w))).
  rewrite IH. by apply keeps_attrs_observer.
Qed.

(** X13.  [plot_convergences] with no figure given and a [convergence_t] that is
    not a table (None on an instance that has run no simulation, or any
    other built-in value): the run raises.  Of the four plots at most
    the first is drawn: the functions called are the ones that make the
    figure and [plot_convergence_f_vspass]. *)
Theorem plot_convergences_without_table t f _display w table :
  (if is_none t then attrs w !! "_convergence_t" = Some table
   else t = table) →
  match table with VObj _ => False | _ => True end →
  let o := plot_convergences t f VNone _display w in
  (∃ e, res o = Raised e) ∧
  ∀ ev, ev ∈ trace o →
    library_call ["plt.figure"; "mpl.gridspec.GridSpec"; "__getitem__";
                  "add_subplot"; "twinx"; "plot_convergence_f_vspass"] ev.
Proof.
  intros Ht Htable. cbv zeta. unfold plot_convergences.
  rewrite (bind_known _ _ w table).
  2: { destruct (is_none t); [| by subst t].
       unfold convergence_t, getattr. by rewrite Ht. }
  match goal with
  | |- (∃ e, res (?m w) = _) ∧ (∀ ev, _ → ?Q ev) =>
      enough (never_returns m ∧ always Q m) as [Hn Ha];
        [ split; [apply Hn | apply Forall_forall, Ha] |]
  end.
  unfold convergence_f, iloc_column, getitem, method, attribute.
  destruct table; try done.
  all: split; [stuck | every_event].
Qed.
End WithOutside.

Arguments Shared {X} cls_default_setup outside.
Arguments cls_default_setup {X} s.
Arguments outside {X} s.
Arguments World {X} attrs env.
Arguments attrs {X} w.
Arguments env {X} w.
Arguments res {X A} o.
Arguments final {X A} o.
Arguments trace {X A} o.
Arguments instantiate {X} base design renderer_name e.
Arguments _render {X} outside_call base design_selection w.
Arguments run_sim {X} outside_call base name components open_terminations
  port_list jj_to_port ignored_jjs box_plus_buffer w.
Arguments plot_convergences {X} outside_call convergence_t' convergence_f' fig
  _display w.
Arguments perform {X} outside_call base op w.
Arguments perform_all {X} outside_call base ops w.

(** ** Doubles for the collaborators, and the claims on them *)

(** A renderer and libraries that answer every call; the outside state
    counts the calls.  [execute_design] answers the tentative name it was
    given, [initialize_eigenmode] the name of the setup, [get_convergences]
    a pair of tables, a library a fresh object. *)
Definition answering (c : callee) (meth : string) (args : list value)
    (kw : kwargs) (e : shared nat) : result value * shared nat :=
  let e' := Shared (cls_default_setup e) (S (outside e)) in
  match c with
  | Renderer =>
      if String.eqb meth "execute_design"
      then (Ok (default VNone (head args)), e')
      else if String.eqb meth "initialize_eigenmode"
      then (Ok (default VNone (kw !! "name")), e')
      else if String.eqb meth "get_convergences"
      then (Ok (VTuple [VObj 1; VObj 2]), e')
      else (Ok VNone, e')
  | Library => (Ok (VObj (outside e)), e')
  end.

(** The same, with a solver that stops: [analyze_setup] raises. *)
Definition solver_stops : exn := Exn "RuntimeError" "solver stopped".

Definition failing (c : callee) (meth : string) (args : list value)
    (kw : kwargs) (e : shared nat) : result value * shared nat :=
  match c with
  | Renderer =>
      if String.eqb meth "analyze_setup" then (Raised solver_stops, e)
      else answering c meth args kw e
  | Library => answering c meth args kw e
  end.

(** A base class whose members just answer: a design named [design], the
    renderer [hfss] not yet started, the default [sim] setup. *)
Definition plain_base : QAnalysisRenderer nat := {|
  super_init := fun _ _ w => (Ok tt, w);
  design_name := fun w => (Ok "design", w);
  renderer_name := fun w => (Ok "hfss", w);
  renderer_initialized := fun w => (Ok false, w);
  _initialize_renderer := fun w => (Ok tt, w);
  setup_sim := fun w =>
    (Ok (match subscript default_setup "sim" with
         | Some (VDict entries) => list_to_map entries
         | _ => ∅
         end), w) |}.

(** The world in which the class has just been defined. *)
Definition start : shared nat := Shared default_setup 0%nat.

(** A freshly constructed instance. *)
Definition fresh : world nat :=
  final (instantiate plain_base (VObj 0) None start).

(** [run_sim()] with its default arguments. *)
Definition run_sim_defaults outside_call : M nat value :=
  run_sim outside_call plain_base VNone VNone VNone VNone VNone VNone
    (VBool true).

Example run_sim_answering :
  res (run_sim_defaults answering fresh) =
  Ok (VTuple [VStr "design_hfss"; VStr "Setup"]).
Proof. vm_compute. reflexivity. Qed.

Example run_sim_methods_answering :
  omap renderer_method (trace (run_sim_defaults answering fresh)) =
  ["execute_design"; "initialize_eigenmode"; "analyze_setup";
   "get_convergences"].
Proof. vm_compute. reflexivity. Qed.

(** The run above, as an instance of C1: it returned, so it made the
    four calls and stored the two tables. *)
Lemma run_sim_sequence_witness :
  ∃ tentative kw dn sim sn r both t f,
    renderer_calls (trace (run_sim_defaults answering fresh)) =
      [Called Renderer "execute_design" [tentative] kw (Ok dn);
       Called Renderer "initialize_eigenmode" [] sim (Ok sn);
       Called Renderer "analyze_setup" [sn] ∅ (Ok r);
       Called Renderer "get_convergences" [] ∅ (Ok both)] ∧
    VTuple [VStr "design_hfss"; VStr "Setup"] = VTuple [dn; sn] ∧
    attrs (final (run_sim_defaults answering fresh)) !! "setup_name" = Some sn ∧
    attrs (final (run_sim_defaults answering fresh)) !! "_convergence_t" = Some t ∧
    attrs (final (run_sim_defaults answering fresh)) !! "_convergence_f" = Some f ∧
    (∀ t' f', both = VTuple [t'; f'] → t = t' ∧ f = f').
Proof.
  apply (run_sim_sequence nat answering plain_base VNone VNone VNone VNone
           VNone VNone (VBool true) fresh).
  vm_compute. reflexivity.
Defined.

(** C2 at a renderer whose solver stops: [run_sim] ends with that
    exception, right after the call of [analyze_setup]. *)
Lemma renderer_exception_propagates_witness :
  res (run_sim_defaults failing fresh) = Raised solver_stops.
Proof.
  apply (renderer_exception_propagates nat failing plain_base
           (RunSim VNone VNone VNone VNone VNone VNone (VBool true)) fresh
           (take 7 (trace (run_sim_defaults failing fresh)))
           "analyze_setup" [VStr "Setup"] ∅ solver_stops []).
  vm_compute. reflexivity.
Defined.

(** C4 as stated fails: [clear_fields] calls the renderer's [clear_fields],
    which is not among the six methods listed. *)
Lemma listed_api_misses_clear_fields :
  ¬ (∀ op w ev meth,
       ev ∈ trace (perform answering plain_base op w) →
       renderer_method ev = Some meth → meth ∈ listed_api).
Proof.
  intros H.
  specialize (H (ClearFields VNone) fresh
                (Called Renderer "clear_fields" [VNone] ∅ (Ok VNone))
                "clear_fields").
  apply list_elem_of_In in H; [| vm_compute; apply list_elem_of_here | done].
  cbn in H. intuition discriminate.
Qed.

Lemma renderer_calls_in_used_api_witness : "clear_fields" ∈ used_api.
Proof.
  apply (renderer_calls_in_used_api nat answering plain_base
           (ClearFields VNone) fresh
           (Called Renderer "clear_fields" [VNone] ∅ (Ok VNone))).
  - vm_compute. apply list_elem_of_here.
  - reflexivity.
Defined.

Lemma answering_keeps_defaults : outside_keeps_defaults nat answering.
Proof.
  intros c meth args kw e. unfold answering.
  destruct c; repeat case_match; reflexivity.
Qed.

Lemma plain_base_keeps_defaults : base_keeps_defaults nat plain_base.
Proof. by split_and!. Qed.

(** C6 on a session: construction, a run, assignments, plots, clearing. *)
Lemma default_setup_static_witness :
  cls_default_setup
    (env (perform_all answering plain_base
            [Init (VObj 0) "hfss";
             RunSim (VStr "main") VNone VNone VNone VNone VNone (VBool true);
             SetConvergenceF (VObj 7);
             RecomputeConvergences (VStr "scale_factor='1.2001'");
             PlotConvergences VNone VNone VNone (VBool true);
             PlotFields (VStr "main") (VInt 1) [] ∅;
             ClearFields VNone]
            (World ∅ start))) = default_setup.
Proof.
  apply (default_setup_static nat answering plain_base _ (World ∅ start)).
  - exact answering_keeps_defaults.
  - exact plain_base_keeps_defaults.
Defined.

Lemma default_setup_sim_witness :
  sim_defaults
    (cls_default_setup
       (env (final (instantiate plain_base (VObj 0) (Some "eigenName") start)))).
Proof.
  apply (proj2 (default_setup_sim nat plain_base)).
  - reflexivity.
  - intros d rn w. reflexivity.
Defined.

Lemma instantiate_does_not_raise_witness :
  res (instantiate plain_base (VObj 0) None start) = Ok VNone ∧
  res (instantiate plain_base (VObj 0) (Some "eigenName") start) = Ok VNone.
Proof.
  assert (Hvalid : valid_design nat plain_base (VObj 0) start).
  { intros rn. eexists. reflexivity. }
  split.
  - apply (instantiate_does_not_raise nat plain_base (VObj 0) None start Hvalid).
  - apply (instantiate_does_not_raise nat plain_base (VObj 0)
             (Some "eigenName") start Hvalid).
Defined.

(** C9 on a run with a [name]: the name given replaces the design's. *)
Lemma render_design_name_witness :
  res (_render answering plain_base {["name" := VStr "main"]} fresh) =
    Ok (VStr "main_hfss") ∧
  tentative_name_ok {["name" := VStr "main"]}
    (trace (_render answering plain_base {["name" := VStr "main"]} fresh))
    [VStr "main_hfss"] {["solution_type" := VStr "eigenmode"]}.
Proof.
  apply (proj1 (render_design_name nat answering plain_base
                  {["name" := VStr "main"]} fresh)).
  vm_compute. do 2 apply list_elem_of_further. apply list_elem_of_here.
Defined.

(** C10 with a figure given: nothing is called. *)
Lemma plot_convergences_given_fig_witness :
  trace (plot_convergences answering VNone VNone (VObj 7) (VBool true) fresh) = [].
Proof.
  apply (plot_convergences_given_fig nat answering VNone VNone (VObj 7)
           (VBool true) fresh).
  reflexivity.
Defined.

(** Without a figure the plots are made, in the order of the source. *)
Example plot_convergences_without_fig :
  omap (fun ev => match ev with
                  | Called Library meth _ _ _ => Some meth
                  | _ => None
                  end)
    (trace (plot_convergences answering VNone VNone VNone (VBool true)
              (final (run_sim_defaults answering fresh)))) =
  ["plt.figure"; "mpl.gridspec.GridSpec";
   "__getitem__"; "add_subplot"; "__getitem__"; "add_subplot";
   "__getitem__"; "add_subplot"; "twinx";
   "plot_convergence_f_vspass";
   "iloc"; "plot_convergence_max_df";
   "iloc"; "plot_convergence_solved_elem";
   "iloc"; "iloc"; "plot_convergence_maxdf_vs_sol";
   "tight_layout"].
Proof. vm_compute. reflexivity. Qed.

(** Recovery is expressible: with [try_except] around it, the same failing
    call does not reach the caller. *)
Example try_except_recovers :
  res (try_except nat (run_sim_defaults failing) (fun _ => ret nat VNone) fresh)
    = Ok VNone.
Proof. vm_compute. reflexivity. Qed.

(** ** The further properties, on the doubles *)

(** A renderer whose [get_convergences] answers three tables. *)
Definition three_tables (c : callee) (meth : string) (args : list value)
    (kw : kwargs) (e : shared nat) : result value * shared nat :=
  match c with
  | Renderer =>
      if String.eqb meth "get_convergences"
      then (Ok (VTuple [VObj 1; VObj 2; VObj 3]), e)
      else answering c meth args kw e
  | Library => answering c meth args kw e
  end.

(** An instance that has run a simulation. *)
Definition simulated : world nat := final (run_sim_defaults answering fresh).

Lemma recompute_convergences_stores_witness :
  VNone = VNone ∧
  ∃ both t f,
    renderer_calls
      (trace (recompute_convergences nat answering (VStr "Lj='12 nH'") fresh)) =
      [Called Renderer "get_convergences" [VStr "Lj='12 nH'"] ∅ (Ok both)] ∧
    attrs (final (recompute_convergences nat answering (VStr "Lj='12 nH'")
                    fresh)) =
      <["_convergence_f" := f]> (<["_convergence_t" := t]> (attrs fresh)) ∧
    (∀ t' f', both = VTuple [t'; f'] → t = t' ∧ f = f').
Proof.
  apply (recompute_convergences_stores nat answering (VStr "Lj='12 nH'")
           fresh VNone).
  vm_compute. reflexivity.
Defined.

Lemma recompute_convergences_failure_witness :
  attrs (final (recompute_convergences nat three_tables VNone simulated)) =
  attrs simulated.
Proof.
  apply (recompute_convergences_failure nat three_tables VNone simulated
           (ValueError "too many values to unpack (expected 2)")).
  vm_compute. reflexivity.
Defined.

Lemma recompute_convergences_arity_witness :
  (∃ detail, res (recompute_convergences nat three_tables VNone simulated)
             = Raised (ValueError detail)) ∧
  attrs (final (recompute_convergences nat three_tables VNone simulated)) =
  attrs simulated.
Proof.
  apply (recompute_convergences_arity nat three_tables VNone simulated
           [VObj 1; VObj 2; VObj 3] (env simulated)).
  - reflexivity.
  - discriminate.
Defined.

(** The solver stops on a fresh instance: the tables are still None, the
    setup name is the one the renderer gave. *)
Lemma analyze_failure_state_witness :
  attrs (final (_analyze nat failing plain_base fresh)) !! "_convergence_t" =
    Some VNone ∧
  attrs (final (_analyze nat failing plain_base fresh)) !! "_convergence_f" =
    Some VNone.
Proof.
  edestruct (analyze_failure_state nat failing plain_base fresh)
    as (Ht & Hf & _).
  - reflexivity.
  - vm_compute. reflexivity.
  - split; [exact Ht | exact Hf].
Defined.

Lemma run_sim_keywords_witness :
  list_to_map
    [("solution_type", VStr "eigenmode"); ("selection", VList [VStr "Q1"]);
     ("open_pins", VNone); ("port_list", VNone); ("jj_to_port", VNone);
     ("ignored_jjs", VNone); ("box_plus_buffer", VBool true)]
  =@{kwargs}
  list_to_map
    ([("solution_type", VStr "eigenmode"); ("selection", VList [VStr "Q1"]);
      ("open_pins", VNone); ("port_list", VNone); ("jj_to_port", VNone);
      ("ignored_jjs", VNone); ("box_plus_buffer", VBool true)]
     ++ if is_none (VStr "main") then [("name", VNone)] else []).
Proof.
  apply (run_sim_keywords nat answering plain_base (VStr "main")
           (VList [VStr "Q1"]) VNone VNone VNone VNone (VBool true) fresh
           [VStr "main_hfss"] _ (Ok (VStr "main_hfss"))).
  vm_compute. do 4 apply list_elem_of_further. apply list_elem_of_here.
Defined.

Lemma render_rejects_name_witness :
  ∃ e, res (_render answering plain_base {["name" := VInt 5]} fresh) = Raised e ∧
       (Forall quiet
          (trace (_render answering plain_base {["name" := VInt 5]} fresh)) →
        ∃ detail, e = TypeError detail).
Proof.
  apply (render_rejects_name nat answering plain_base {["name" := VInt 5]}
           fresh (VInt 5)).
  - reflexivity.
  - exact I.
Defined.

Lemma render_solution_type_clash_witness :
  renderer_calls
    (trace (_render answering plain_base
              {["solution_type" := VStr "drivenmodal"]} fresh)) = [].
Proof.
  apply (render_solution_type_clash nat answering plain_base
           {["solution_type" := VStr "drivenmodal"]} fresh
           (VStr "drivenmodal")).
  reflexivity.
Defined.

Lemma plot_fields_calls_witness :
  ∃ sn r, attrs simulated !! "setup_name" = Some sn ∧
    trace (plot_fields nat answering (VStr "main") (VInt 1) [] ∅ simulated) =
      [Called Renderer "set_mode" [VInt 1; sn] ∅ (Ok r);
       Called Renderer "plot_fields" []
         (<["object_name" := VStr "main"]> ∅) (Ok VNone)].
Proof.
  apply (plot_fields_calls nat answering (VStr "main") (VInt 1) [] ∅
           simulated).
  vm_compute. reflexivity.
Defined.

Lemma run_sim_initializes_first_witness :
  Inherited "renderer_initialized" (Ok (VBool true))
    ∈ take 7 (trace (run_sim_defaults answering fresh)) ∨
  (Inherited "renderer_initialized" (Ok (VBool false))
     ∈ take 7 (trace (run_sim_defaults answering fresh)) ∧
   Inherited "_initialize_renderer" (Ok VNone)
     ∈ take 7 (trace (run_sim_defaults answering fresh))).
Proof.
  apply (proj1 (run_sim_initializes_first nat answering plain_base VNone
                  VNone VNone VNone VNone VNone (VBool true) fresh)
           (take 7 (trace (run_sim_defaults answering fresh)))
           "analyze_setup" [VStr "Setup"] ∅ (Ok VNone)
           (drop 8 (trace (run_sim_defaults answering fresh)))).
  vm_compute. reflexivity.
Defined.

Lemma plot_convergences_libraries_only_witness :
  library_call plotting
    (Called Library "plt.figure" []
       {["figsize" := VTuple [VInt 11; VFloat 3]]} (Ok (VObj 4))).
Proof.
  apply (plot_convergences_libraries_only nat answering VNone VNone VNone
           (VBool true) simulated).
  vm_compute. apply list_elem_of_here.
Defined.

Lemma observers_leave_instance_witness :
  attrs (perform_all answering plain_base
           [PlotConvergences VNone VNone VNone (VBool true);
            PlotFields (VStr "main") (VInt 1) [] ∅;
            ClearFields VNone; GetConvergenceT; GetConvergenceF]
           simulated) = attrs simulated.
Proof.
  apply (observers_leave_instance nat answering plain_base).
  repeat constructor.
Defined.

(** Plotting on a fresh instance: no table yet. *)
Lemma plot_convergences_without_table_witness :
  ∃ e, res (plot_convergences answering VNone VNone VNone (VBool true) fresh)
       = Raised e.
Proof.
  apply (plot_convergences_without_table nat answering VNone VNone (VBool true)
           fresh VNone).
  - vm_compute. reflexivity.
  - exact I.
Defined.

(** [run_sim(name=5)]: nothing reaches the renderer. *)
Lemma run_sim_rejects_name_witness :
  renderer_calls
    (trace (run_sim answering plain_base (VInt 5) VNone VNone VNone VNone
              VNone (VBool true) fresh)) = [] ∧
  ∃ e, res (run_sim answering plain_base (VInt 5) VNone VNone VNone VNone
              VNone (VBool true) fresh) = Raised e.
Proof.
  apply (run_sim_rejects_name nat answering plain_base (VInt 5) VNone VNone
           VNone VNone VNone (VBool true) fresh).
  exact I.
Defined.
End EigenmodeSim.

(** * The tree view base: [_gui/tree_view_base.py] *)

Module QTreeView_Base.

(** [QTreeView_Base] styles a tree view and sizes its columns.  All it does
    is call the widget toolkit (Qt): the toolkit is not in the file, so its
    state and the effect and answer of each of its methods are parameters,
    and a run records the calls made on it.  What is proved is which calls
    the class makes, with which arguments, in which order and from which
    method; what a call does to the widget is the toolkit's business. *)

(** [QAbstractItemView.ScrollMode] *)
Inductive scroll_mode : Type := ScrollPerItem | ScrollPerPixel.

(** The bound methods the class hands to the toolkit: [self.style_me] and
    [self.resize_on_expand]. *)
Inductive slot : Type := style_me_slot | resize_on_expand_slot.

Section Toolkit.

(** The state of the toolkit (widgets and their geometry, timers,
    connections, item models), the handles of item models, and the data the
    models hold. *)
Variable Q : Type.
Variable Model : Type.
Variable Data : Type.
Variable model_data : Q -> Data.

(** The methods of the toolkit a tree view can call, with the types of
    their signatures; each may raise and may change the state.  The class
    calls all of them but [setData], the method that writes into a model. *)
Record QTreeView : Type := {
  (* QTreeView.__init__(self, parent) *)
  QTreeView_init : value -> Q -> result unit * Q;
  (* QTimer.singleShot(msec, slot) *)
  singleShot : Z -> slot -> Q -> result unit * Q;
  (* self.expanded.connect(slot) *)
  expanded_connect : slot -> Q -> result unit * Q;
  (* self.header().show() *)
  header_show : Q -> result unit * Q;
  setAutoScroll : bool -> Q -> result unit * Q;
  setVerticalScrollMode : scroll_mode -> Q -> result unit * Q;
  setHorizontalScrollMode : scroll_mode -> Q -> result unit * Q;
  setStyleSheet : string -> Q -> result unit * Q;
  (* self.model(), None when the view has no model *)
  model : Q -> result (option Model) * Q;
  (* m.columnCount(parent) *)
  columnCount : Model -> value -> Q -> result Z * Q;
  (* m.setData(index, value) *)
  setData : Model -> value -> value -> Q -> result bool * Q;
  resizeColumnToContents : Z -> Q -> result unit * Q;
  columnWidth : Z -> Q -> result Z * Q;
  setColumnWidth : Z -> Z -> Q -> result unit * Q }.

Variable qt : QTreeView.

(** A call made on the toolkit, with its arguments and the answer. *)
Inductive call : Type :=
| Init (parent : value) (r : result unit)
| SingleShot (msec : Z) (s : slot) (r : result unit)
| Connect (s : slot) (r : result unit)
| HeaderShow (r : result unit)
| SetAutoScroll (enable : bool) (r : result unit)
| SetVerticalScrollMode (mode : scroll_mode) (r : result unit)
| SetHorizontalScrollMode (mode : scroll_mode) (r : result unit)
| SetStyleSheet (sheet : string) (r : result unit)
| GetModel (r : result (option Model))
| ColumnCount (m : Model) (parent : value) (r : result Z)
| SetData (m : Model) (index data : value) (r : result bool)
| ResizeColumnToContents (column : Z) (r : result unit)
| ColumnWidth (column : Z) (r : result Z)
| SetColumnWidth (column width : Z) (r : result unit).

(** ** Runs: state, exception and the calls made *)

Record outcome (A : Type) : Type := Outcome {
  res : result A;
  final : Q;
  trace : list call }.
Arguments Outcome {A} res final trace.
Arguments res {A} o.
Arguments final {A} o.
Arguments trace {A} o.

Definition T (A : Type) : Type := Q -> outcome A.

Definition ret {A} (a : A) : T A := fun q => Outcome (Ok a) q [].

Definition raise {A} (e : exn) : T A := fun q => Outcome (Raised e) q [].

Definition after {A} (tr : list call) (o : outcome A) : outcome A :=
  let '(Outcome r q tr') := o in Outcome r q (tr ++ tr').

Definition bind {A B} (m : T A) (k : A -> T B) : T B := fun q =>
  match m q with
  | Outcome (Ok a) q' tr => after tr (k a q')
  | Outcome (Raised e) q' tr => Outcome (Raised e) q' tr
  end.

#[local] Instance T_ret : MRet T := @ret.
#[local] Instance T_bind : MBind T := fun A B k m => bind m k.

(** A method of the toolkit is called; [log] is how the call is recorded. *)
Definition toolkit {A} (member : Q -> result A * Q) (log : result A -> call)
  : T A := fun q =>
  let '(r, q') := member q in Outcome r q' [log r].

(** The calls as the class writes them. *)
Definition QTreeView___init__ (parent : value) : T unit :=
  toolkit (QTreeView_init qt parent) (Init parent).

Definition QTimer_singleShot (msec : Z) (s : slot) : T unit :=
  toolkit (singleShot qt msec s) (SingleShot msec s).

Definition self_expanded_connect (s : slot) : T unit :=
  toolkit (expanded_connect qt s) (Connect s).

Definition self_header_show : T unit :=
  toolkit (header_show qt) HeaderShow.

Definition self_setAutoScroll (enable : bool) : T unit :=
  toolkit (setAutoScroll qt enable) (SetAutoScroll enable).

Definition self_setVerticalScrollMode (mode : scroll_mode) : T unit :=
  toolkit (setVerticalScrollMode qt mode) (SetVerticalScrollMode mode).

Definition self_setHorizontalScrollMode (mode : scroll_mode) : T unit :=
  toolkit (setHorizontalScrollMode qt mode) (SetHorizontalScrollMode mode).

Definition self_setStyleSheet (sheet : string) : T unit :=
  toolkit (setStyleSheet qt sheet) (SetStyleSheet sheet).

Definition self_model : T (option Model) :=
  toolkit (model qt) GetModel.

Definition model_columnCount (m : Model) (parent : value) : T Z :=
  toolkit (columnCount qt m parent) (ColumnCount m parent).

Definition self_resizeColumnToContents (column : Z) : T unit :=
  toolkit (resizeColumnToContents qt column) (ResizeColumnToContents column).

Definition self_columnWidth (column : Z) : T Z :=
  toolkit (columnWidth qt column) (ColumnWidth column).

Definition self_setColumnWidth (column width : Z) : T unit :=
  toolkit (setColumnWidth qt column width) (SetColumnWidth column width).

(** [range(n)] *)
Definition range (n : Z) : list Z := Z.of_nat <$> seq 0 (Z.to_nat n).

(** [for i in items: body(i)] *)
Fixpoint for_each (items : list Z) (body : Z -> T unit) : T unit :=
  match items with
  | [] => ret tt
  | i :: items => body i;; for_each items body
  end.

(** ** The methods of [QTreeView_Base] *)

Definition __init__ (parent : value) : T unit :=
  QTreeView___init__ parent;;
  QTimer_singleShot 200 style_me_slot;;
  self_expanded_connect resize_on_expand_slot.

(** The text between the triple quotes of the source. *)
Definition newline : string := String (Ascii.ascii_of_nat 10) "".

Definition branch_style : string :=
  newline +:+ "QTreeView::branch {  border-image: url(none.png); }" +:+
  newline +:+ "        ".

Definition style_me : T unit :=
  self_header_show;;
  self_setAutoScroll false;;
  self_setVerticalScrollMode ScrollPerPixel;;
  self_setHorizontalScrollMode ScrollPerPixel;;
  self_setStyleSheet branch_style.

(** One turn of the loop of [autoresize_columns]. *)
Definition autoresize_column (max_width : Z) (i : Z) : T unit :=
  self_resizeColumnToContents i;;
  width ← self_columnWidth i;
  if width >? max_width then self_setColumnWidth i max_width else ret tt.

(** [max_width] is None when the caller leaves it out: it is 200 then.
    [self.model()] with no model is None, which has no [columnCount]. *)
Definition autoresize_columns (max_width : option Z) : T unit :=
  let max_width := default 200 max_width in
  m ← self_model;
  match m with
  | None => raise (AttributeError "columnCount")
  | Some m =>
      columns ← model_columnCount m VNone;
      for_each (range columns) (autoresize_column max_width)
  end.

Definition resize_on_expand : T unit :=
  self_resizeColumnToContents 0.

(** The toolkit calling back: the timer fires, an item is expanded. *)
Definition run_slot (s : slot) : T unit :=
  match s with
  | style_me_slot => style_me
  | resize_on_expand_slot => resize_on_expand
  end.

(** The methods of the class; [style_me] is what runs in the callback of
    the timer, [resize_on_expand] what runs when an item is expanded. *)
Inductive operation : Type :=
| Construct (parent : value)
| StyleMe
| AutoresizeColumns (max_width : option Z)
| ResizeOnExpand.

Definition perform (op : operation) : T unit :=
  match op with
  | Construct parent => __init__ parent
  | StyleMe => style_me
  | AutoresizeColumns max_width => autoresize_columns max_width
  | ResizeOnExpand => resize_on_expand
  end.

(** An operation that is the callback of the constructor's timer. *)
Definition in_timer_callback (op : operation) : bool :=
  match op with
  | StyleMe => true
  | _ => false
  end.

(** ** Kinds of calls *)

(** The calls that set a display property of the view. *)
Definition sets_display (c : call) : bool :=
  match c with
  | HeaderShow _ | SetAutoScroll _ _ | SetVerticalScrollMode _ _
  | SetHorizontalScrollMode _ _ | SetStyleSheet _ _ => true
  | _ => false
  end.

(** The calls that set the width of a column. *)
Definition sets_width (c : call) : bool :=
  match c with
  | ResizeColumnToContents _ _ | SetColumnWidth _ _ _ => true
  | _ => false
  end.

(** The calls that write into a model. *)
Definition writes_model (c : call) : bool :=
  match c with
  | SetData _ _ _ _ => true
  | _ => false
  end.

(** The exception a call raised, if it raised. *)
Definition failure (c : call) : option exn :=
  match c with
  | Init _ (Raised e) | SingleShot _ _ (Raised e) | Connect _ (Raised e)
  | HeaderShow (Raised e) | SetAutoScroll _ (Raised e)
  | SetVerticalScrollMode _ (Raised e) | SetHorizontalScrollMode _ (Raised e)
  | SetStyleSheet _ (Raised e) | GetModel (Raised e)
  | ColumnCount _ _ (Raised e) | SetData _ _ _ (Raised e)
  | ResizeColumnToContents _ (Raised e) | ColumnWidth _ (Raised e)
  | SetColumnWidth _ _ (Raised e) => Some e
  | _ => None
  end.

Definition quiet (c : call) : Prop := failure c = None.

(** The calls of one turn of the loop of [autoresize_columns] that goes
    through, on column [i] whose width was answered as [width]. *)
Definition column_calls (max_width i width : Z) : list call :=
  [ResizeColumnToContents i (Ok tt); ColumnWidth i (Ok width)] ++
  if width >? max_width then [SetColumnWidth i max_width (Ok tt)] else [].

(** A method of the toolkit that leaves the data of the models alone. *)
Definition keeps_data {A} (member : Q -> result A * Q) : Prop :=
  ∀ q, model_data (member q).2 = model_data q.

(** The methods of the toolkit that are about the display, all but
    [setData], leave the data of the models alone. *)
Definition display_only : Prop :=
  (∀ parent, keeps_data (QTreeView_init qt parent)) ∧
  (∀ msec s, keeps_data (singleShot qt msec s)) ∧
  (∀ s, keeps_data (expanded_connect qt s)) ∧
  keeps_data (header_show qt) ∧
  (∀ enable, keeps_data (setAutoScroll qt enable)) ∧
  (∀ mode, keeps_data (setVerticalScrollMode qt mode)) ∧
  (∀ mode, keeps_data (setHorizontalScrollMode qt mode)) ∧
  (∀ sheet, keeps_data (setStyleSheet qt sheet)) ∧
  keeps_data (model qt) ∧
  (∀ m parent, keeps_data (columnCount qt m parent)) ∧
  (∀ column, keeps_data (resizeColumnToContents qt column)) ∧
  (∀ column, keeps_data (columnWidth qt column)) ∧
  (∀ column width, keeps_data (setColumnWidth qt column width)).

(** Every call of every run has the property [P]. *)
Definition every_call {A} (P : call -> Prop) (m : T A) : Prop :=
  ∀ q, Forall P (trace (m q)).

(** No run changes the data of the models. *)
Definition keeps_model_data {A} (m : T A) : Prop :=
  ∀ q, model_data (final (m q)) = model_data q.

(** ** Laws of runs *)

Lemma tree_bind_Ok {A B} (m : T A) (k : A → T B) q a :
  res (m q) = Ok a →
  (m ≫= k) q =
  Outcome (res (k a (final (m q)))) (final (k a (final (m q))))
          (trace (m q) ++ trace (k a (final (m q)))).
Proof.
  intros H. unfold mbind, T_bind, bind. destruct (m q) as [r q' tr].
  cbn in H. subst r. cbn. by destruct (k a q').
Qed.

Lemma tree_bind_Raised {A B} (m : T A) (k : A → T B) q e :
  res (m q) = Raised e →
  (m ≫= k) q = Outcome (Raised e) (final (m q)) (trace (m q)).
Proof.
  intros H. unfold mbind, T_bind, bind. destruct (m q) as [r q' tr].
  cbn in H. by subst r.
Qed.

Section EveryCall.
Variable P : call → Prop.

Lemma every_call_ret {A} (a : A) : every_call P (ret a).
Proof. intros q. constructor. Qed.

Lemma every_call_raise {A} e : every_call P (@raise A e).
Proof. intros q. constructor. Qed.

Lemma every_call_bind {A B} (m : T A) (k : A → T B) :
  every_call P m → (∀ a, every_call P (k a)) → every_call P (m ≫= k).
Proof.
  intros Hm Hk q. destruct (res (m q)) as [a | e] eqn:Hres.
  - rewrite (tree_bind_Ok _ _ _ _ Hres). cbn. apply Forall_app.
    split; [apply Hm | apply Hk].
  - rewrite (tree_bind_Raised _ _ _ _ Hres). apply Hm.
Qed.

Lemma every_call_toolkit {A} (member : Q → result A * Q) log :
  (∀ r, P (log r)) → every_call P (toolkit member log).
Proof.
  intros H q. unfold toolkit. destruct (member q) as [r q'].
  by repeat constructor.
Qed.

Lemma every_call_for_each items body :
  (∀ i, every_call P (body i)) → every_call P (for_each items body).
Proof.
  intros Hbody. induction items as [| i items IH]; cbn [for_each].
  - apply every_call_ret.
  - apply every_call_bind; [apply Hbody | intros _; apply IH].
Qed.

End EveryCall.

Lemma keeps_model_data_ret {A} (a : A) : keeps_model_data (ret a).
Proof. by intros q. Qed.

Lemma keeps_model_data_raise {A} e : keeps_model_data (@raise A e).
Proof. by intros q. Qed.

Lemma keeps_model_data_bind {A B} (m : T A) (k : A → T B) :
  keeps_model_data m → (∀ a, keeps_model_data (k a)) →
  keeps_model_data (m ≫= k).
Proof.
  intros Hm Hk q. destruct (res (m q)) as [a | e] eqn:Hres.
  - rewrite (tree_bind_Ok _ _ _ _ Hres). cbn. by rewrite Hk.
  - rewrite (tree_bind_Raised _ _ _ _ Hres). apply Hm.
Qed.

Lemma keeps_model_data_toolkit {A} (member : Q → result A * Q) log :
  keeps_data member → keeps_model_data (toolkit member log).
Proof.
  intros H q. unfold toolkit. specialize (H q).
  by destruct (member q) as [r q'].
Qed.

Lemma keeps_model_data_for_each items body :
  (∀ i, keeps_model_data (body i)) → keeps_model_data (for_each items body).
Proof.
  intros Hbody. induction items as [| i items IH]; cbn [for_each].
  - apply keeps_model_data_ret.
  - apply keeps_model_data_bind; [apply Hbody | intros _; apply IH].
Qed.

Create HintDb tree_calls.
#[local] Hint Resolve every_call_ret every_call_raise : tree_calls.
#[local] Hint Extern 1 (every_call _ (toolkit _ _)) =>
  apply every_call_toolkit; intros; reflexivity : tree_calls.

Ltac open_methods :=
  unfold __init__, style_me, autoresize_columns, autoresize_column,
    resize_on_expand, QTreeView___init__, QTimer_singleShot,
    self_expanded_connect, self_header_show, self_setAutoScroll,
    self_setVerticalScrollMode, self_setHorizontalScrollMode,
    self_setStyleSheet, self_model, model_columnCount,
    self_resizeColumnToContents, self_columnWidth, self_setColumnWidth in *.

Ltac calls_are :=
  cbv zeta;
  repeat first
    [ apply every_call_bind; [ | intros ]
    | apply every_call_for_each; intros
    | solve [ eauto with tree_calls ]
    | case_match ].

(** Run a straight-line method on every answer of the toolkit. *)
Ltac walk :=
  unfold mbind, T_bind, bind, toolkit, ret, raise in *;
  repeat (case_match; simplify_eq; cbn [after res final trace app] in *);
  repeat match goal with u : () |- _ => destruct u end.

Ltac not_quiet :=
  repeat match goal with
    | r : result () |- _ => destruct r as [[] |]
    end;
  try done;
  repeat match goal with
    | H : Forall quiet (_ :: _) |- _ => apply Forall_cons in H as [? H]
    | H : quiet _ |- _ => by inversion H
    end.

Lemma display_calls_in_style_me op :
  in_timer_callback op = false →
  every_call (λ c, sets_display c = false) (perform op).
Proof.
  destruct op; try discriminate 1; intros _; cbn [perform]; open_methods;
    calls_are.
Qed.

Lemma width_calls_outside_callback op :
  (∀ max_width, op ≠ AutoresizeColumns max_width) → op ≠ ResizeOnExpand →
  every_call (λ c, sets_width c = false) (perform op).
Proof.
  intros Hauto Hexp. destruct op; try done; cbn [perform]; open_methods.
  1, 2: calls_are.
  by destruct (Hauto max_width).
Qed.

Lemma no_model_write op :
  every_call (λ c, writes_model c = false) (perform op).
Proof. destruct op; cbn [perform]; open_methods; calls_are. Qed.

Lemma perform_keeps_model_data op :
  display_only → keeps_model_data (perform op).
Proof.
  intros (Hinit & Hshot & Hconn & Hhead & Hauto & Hvert & Hhor & Hsheet &
          Hmodel & Hcount & Hresize & Hwidth & Hset).
  destruct op; cbn [perform]; open_methods; cbv zeta;
    repeat first
      [ apply keeps_model_data_bind; [ | intros ]
      | apply keeps_model_data_for_each; intros
      | apply keeps_model_data_toolkit; solve [ auto ]
      | apply keeps_model_data_ret
      | apply keeps_model_data_raise
      | case_match ].
Qed.

(** ** The methods, call by call *)

Lemma toolkit_trace {A} (member : Q → result A * Q) log q :
  trace (toolkit member log q) = [log (res (toolkit member log q))].
Proof. unfold toolkit. by destruct (member q). Qed.

Lemma init_returns parent q :
  res (__init__ parent q) = Ok tt →
  trace (__init__ parent q) =
    [Init parent (Ok tt); SingleShot 200 style_me_slot (Ok tt);
     Connect resize_on_expand_slot (Ok tt)].
Proof. open_methods. walk; try discriminate 1. by intros ->. Qed.

Lemma init_quiet parent q :
  Forall quiet (trace (__init__ parent q)) → res (__init__ parent q) = Ok tt.
Proof. open_methods. walk; intros Hq; try done; not_quiet. Qed.

Lemma style_me_returns q :
  res (style_me q) = Ok tt →
  trace (style_me q) =
    [HeaderShow (Ok tt); SetAutoScroll false (Ok tt);
     SetVerticalScrollMode ScrollPerPixel (Ok tt);
     SetHorizontalScrollMode ScrollPerPixel (Ok tt);
     SetStyleSheet branch_style (Ok tt)].
Proof. open_methods. walk; try discriminate 1. by intros ->. Qed.

Lemma style_me_quiet q :
  Forall quiet (trace (style_me q)) → res (style_me q) = Ok tt.
Proof. open_methods. walk; intros Hq; try done; not_quiet. Qed.

Lemma resize_on_expand_call q :
  trace (resize_on_expand q) =
    [ResizeColumnToContents 0 (res (resize_on_expand q))].
Proof. apply toolkit_trace. Qed.

Lemma column_returns max_width i q :
  res (autoresize_column max_width i q) = Ok tt →
  ∃ width, trace (autoresize_column max_width i q) =
             column_calls max_width i width.
Proof.
  unfold column_calls. open_methods. walk; try discriminate 1.
  all: intros Hres; subst.
  all: match goal with
       | H : (?width >? _) = _ |- _ => exists width; by rewrite H
       end.
Qed.

Lemma column_quiet max_width i q :
  Forall quiet (trace (autoresize_column max_width i q)) →
  res (autoresize_column max_width i q) = Ok tt.
Proof. open_methods. walk; intros Hq; try done; not_quiet. Qed.

Lemma loop_returns max_width items q :
  res (for_each items (autoresize_column max_width) q) = Ok tt →
  ∃ widths, length widths = length items ∧
    trace (for_each items (autoresize_column max_width) q) =
      concat (zip_with (column_calls max_width) items widths).
Proof.
  revert q. induction items as [| i items IH]; intros q; cbn [for_each].
  - intros _. by exists [].
  - destruct (res (autoresize_column max_width i q)) as [[] | e] eqn:Hi.
    + rewrite (tree_bind_Ok _ _ _ _ Hi). cbn [res trace]. intros Hres.
      destruct (column_returns _ _ _ Hi) as [width ->].
      destruct (IH _ Hres) as (widths & Hlen & ->).
      exists (width :: widths). split; [cbn; congruence | reflexivity].
    + rewrite (tree_bind_Raised _ _ _ _ Hi). discriminate 1.
Qed.

Lemma loop_quiet max_width items q :
  Forall quiet (trace (for_each items (autoresize_column max_width) q)) →
  res (for_each items (autoresize_column max_width) q) = Ok tt.
Proof.
  revert q. induction items as [| i items IH]; intros q; cbn [for_each];
    [done |].
  destruct (res (autoresize_column max_width i q)) as [[] | e] eqn:Hi.
  - rewrite (tree_bind_Ok _ _ _ _ Hi). cbn [res trace].
    intros [_ Hq]%Forall_app. by apply IH.
  - rewrite (tree_bind_Raised _ _ _ _ Hi). cbn [res trace]. intros Hq.
    apply column_quiet in Hq. congruence.
Qed.

Lemma length_range n : length (range n) = Z.to_nat n.
Proof. unfold range. by rewrite length_fmap, length_seq. Qed.

Lemma elem_of_range i n : i ∈ range n ↔ 0 ≤ i < n.
Proof.
  unfold range. rewrite list_elem_of_fmap. split.
  - intros (k & -> & Hk%elem_of_seq). lia.
  - intros Hi. exists (Z.to_nat i). split; [lia |]. apply elem_of_seq. lia.
Qed.

Lemma autoresize_columns_returns max_width q :
  res (autoresize_columns max_width q) = Ok tt →
  ∃ m n widths, length widths = Z.to_nat n ∧
    trace (autoresize_columns max_width q) =
      GetModel (Ok (Some m)) :: ColumnCount m VNone (Ok n) ::
      concat (zip_with (column_calls (default 200 max_width)) (range n)
                widths).
Proof.
  unfold autoresize_columns. cbv zeta.
  destruct (res (self_model q)) as [[m |] | e] eqn:Hm.
  - rewrite (tree_bind_Ok _ _ _ _ Hm). cbn [res trace].
    destruct (res (model_columnCount m VNone (final (self_model q))))
      as [n | e] eqn:Hn.
    + rewrite (tree_bind_Ok _ _ _ _ Hn). cbn [res trace]. intros Hres.
      destruct (loop_returns _ _ _ Hres) as (widths & Hlen & ->).
      exists m, n, widths. rewrite length_range in Hlen. split; [done |].
      unfold self_model, model_columnCount in *.
      by rewrite !toolkit_trace, Hm, Hn.
    + rewrite (tree_bind_Raised _ _ _ _ Hn). discriminate 1.
  - rewrite (tree_bind_Ok _ _ _ _ Hm). discriminate 1.
  - rewrite (tree_bind_Raised _ _ _ _ Hm). discriminate 1.
Qed.

Lemma autoresize_columns_quiet max_width q m :
  GetModel (Ok (Some m)) ∈ trace (autoresize_columns max_width q) →
  Forall quiet (trace (autoresize_columns max_width q)) →
  res (autoresize_columns max_width q) = Ok tt.
Proof.
  unfold autoresize_columns. cbv zeta.
  destruct (res (self_model q)) as [[m' |] | e] eqn:Hm.
  - rewrite (tree_bind_Ok _ _ _ _ Hm). cbn [res trace]. intros _.
    destruct (res (model_columnCount m' VNone (final (self_model q))))
      as [n | e] eqn:Hn.
    + rewrite (tree_bind_Ok _ _ _ _ Hn). cbn [res trace].
      intros [_ [_ Hq]%Forall_app]%Forall_app. by apply loop_quiet.
    + rewrite (tree_bind_Raised _ _ _ _ Hn). cbn [res trace].
      unfold model_columnCount in *. rewrite toolkit_trace, Hn.
      intros [_ Hq]%Forall_app. not_quiet.
  - rewrite (tree_bind_Ok _ _ _ _ Hm). cbn [res trace].
    unfold self_model in *. rewrite toolkit_trace, Hm.
    rewrite app_nil_r. intros [= ] %list_elem_of_singleton.
  - rewrite (tree_bind_Raised _ _ _ _ Hm). cbn [res trace].
    unfold self_model in *. rewrite toolkit_trace, Hm.
    intros _ Hq. not_quiet.
Qed.

Lemma column_calls_resize max_width items widths i :
  length widths = length items → i ∈ items →
  ResizeColumnToContents i (Ok tt)
    ∈ concat (zip_with (column_calls max_width) items widths).
Proof.
  revert widths. induction items as [| j items IH];
    intros [| width widths] Hlen Hin; try done.
  - by apply elem_of_nil in Hin.
  - cbn. apply elem_of_cons in Hin as [-> | Hin].
    + apply list_elem_of_here.
    + do 2 apply list_elem_of_further. apply elem_of_app. right.
      apply IH; [by injection Hlen | done].
Qed.

(** ** The claim on the tree view *)

(** C5, as amended.  The constructor, when the toolkit lets it, makes
    three calls: [QTreeView.__init__], a single-shot timer of 200 ms on
    [style_me], and the connection of [expanded] to [resize_on_expand].
    The timer callback [style_me] shows the header, disables auto-scroll,
    sets both scroll modes to per-pixel and sets the style sheet; a call
    that sets a display property is made from nowhere else.  The calls
    that set a column width are made by [resize_on_expand], which asks for
    column 0 to be resized to its contents, and by [autoresize_columns],
    which asks it for every column below the model's [columnCount]; no
    other method makes one.  No operation calls the model's writer, and
    when the toolkit's display methods leave the data of the models
    alone, so does every operation. *)
Theorem tree_view_changes :
  (∀ parent q,
     (res (__init__ parent q) = Ok tt →
      trace (__init__ parent q) =
        [Init parent (Ok tt); SingleShot 200 style_me_slot (Ok tt);
         Connect resize_on_expand_slot (Ok tt)]) ∧
     (Forall quiet (trace (__init__ parent q)) →
      res (__init__ parent q) = Ok tt))
  ∧ (∀ q,
       run_slot style_me_slot q = style_me q ∧
       (res (style_me q) = Ok tt →
        trace (style_me q) =
          [HeaderShow (Ok tt); SetAutoScroll false (Ok tt);
           SetVerticalScrollMode ScrollPerPixel (Ok tt);
           SetHorizontalScrollMode ScrollPerPixel (Ok tt);
           SetStyleSheet branch_style (Ok tt)]) ∧
       (Forall quiet (trace (style_me q)) → res (style_me q) = Ok tt))
  ∧ (∀ op q c,
       c ∈ trace (perform op q) → sets_display c = true →
       in_timer_callback op = true)
  ∧ (∀ op q c,
       c ∈ trace (perform op q) → sets_width c = true →
       op = ResizeOnExpand ∨ ∃ max_width, op = AutoresizeColumns max_width)
  ∧ (∀ q,
       run_slot resize_on_expand_slot q = resize_on_expand q ∧
       trace (resize_on_expand q) =
         [ResizeColumnToContents 0 (res (resize_on_expand q))])
  ∧ (∀ max_width q,
       res (autoresize_columns max_width q) = Ok tt →
       ∃ m n,
         ColumnCount m VNone (Ok n) ∈ trace (autoresize_columns max_width q) ∧
         ∀ i, 0 ≤ i < n →
           ResizeColumnToContents i (Ok tt)
             ∈ trace (autoresize_columns max_width q))
  ∧ (∀ op q c, c ∈ trace (perform op q) → writes_model c = false)
  ∧ (display_only →
     ∀ op q, model_data (final (perform op q)) = model_data q).
Proof.
  split_and!.
  - intros parent q. split; [apply init_returns | apply init_quiet].
  - intros q. split_and!;
      [reflexivity | apply style_me_returns | apply style_me_quiet].
  - intros op q c Hin Hdisplay.
    destruct (in_timer_callback op) eqn:Hop; [done |].
    pose proof (display_calls_in_style_me op Hop q) as Hall.
    rewrite Forall_forall in Hall. specialize (Hall c Hin). cbn in Hall.
    congruence.
  - intros op q c Hin Hwidth.
    destruct op as [parent | | max_width |];
      [| | by right; eexists | by left].
    + pose proof (width_calls_outside_callback (Construct parent)
                    ltac:(done) ltac:(done) q) as Hall.
      rewrite Forall_forall in Hall. specialize (Hall c Hin). cbn in Hall.
      congruence.
    + pose proof (width_calls_outside_callback StyleMe
                    ltac:(done) ltac:(done) q) as Hall.
      rewrite Forall_forall in Hall. specialize (Hall c Hin). cbn in Hall.
      congruence.
  - intros q. split; [reflexivity | apply resize_on_expand_call].
  - intros max_width q Hres.
    destruct (autoresize_columns_returns _ _ Hres)
      as (m & n & widths & Hlen & Htrace).
    exists m, n. rewrite Htrace. split.
    + apply list_elem_of_further, list_elem_of_here.
    + intros i Hi. do 2 apply list_elem_of_further.
      apply column_calls_resize; [by rewrite length_range |].
      by apply elem_of_range.
  - intros op q c Hin. pose proof (no_model_write op q) as Hall.
    rewrite Forall_forall in Hall. by apply Hall.
  - intros Hqt op q. by apply perform_keeps_model_data.
Qed.

(** ** Further properties of the tree view *)

(** X15.  [autoresize_columns], call by call.  A run that returns has
    asked for the model and its [columnCount(None)], and then, for each
    column below that count in increasing order, has resized the column to
    its contents, read its width, and set the width to [max_width] (200
    when left out) exactly when the width read was larger.  A view with no
    model gives [AttributeError] and an exception of [columnCount] is the
    run's exception, in both cases before any column is touched; and the
    run returns when there is a model and no call raises. *)
Theorem autoresize_columns_calls max_width q :
  let o := autoresize_columns max_width q in
  (res o = Ok tt →
   ∃ m n widths, length widths = Z.to_nat n ∧
     trace o =
       GetModel (Ok (Some m)) :: ColumnCount m VNone (Ok n) ::
       concat (zip_with (column_calls (default 200 max_width)) (range n)
                 widths))
  ∧ (∀ q', model qt q = (Ok None, q') →
       trace o = [GetModel (Ok None)] ∧
       res o = Raised (AttributeError "columnCount"))
  ∧ (∀ m q1 e q2,
       model qt q = (Ok (Some m), q1) →
       columnCount qt m VNone q1 = (Raised e, q2) →
       trace o = [GetModel (Ok (Some m)); ColumnCount m VNone (Raised e)] ∧
       res o = Raised e)
  ∧ (∀ m, GetModel (Ok (Some m)) ∈ trace o → Forall quiet (trace o) →
       res o = Ok tt).
Proof.
  cbv zeta. split_and!.
  - apply autoresize_columns_returns.
  - intros q' Hm. open_methods. cbv zeta. walk. done.
  - intros m q1 e q2 Hm Hn. open_methods. cbv zeta.
    unfold mbind, T_bind, bind, toolkit. rewrite Hm. cbn. by rewrite Hn.
  - intros m. apply autoresize_columns_quiet.
Qed.

End Toolkit.

Arguments Outcome {Q Model A} res final trace.
Arguments res {Q Model A} o.
Arguments final {Q Model A} o.
Arguments trace {Q Model A} o.
Arguments Init {Model} parent r.
Arguments SingleShot {Model} msec s r.
Arguments Connect {Model} s r.
Arguments HeaderShow {Model} r.
Arguments SetAutoScroll {Model} enable r.
Arguments SetVerticalScrollMode {Model} mode r.
Arguments SetHorizontalScrollMode {Model} mode r.
Arguments SetStyleSheet {Model} sheet r.
Arguments GetModel {Model} r.
Arguments ColumnCount {Model} m parent r.
Arguments SetData {Model} m index data r.
Arguments ResizeColumnToContents {Model} column r.
Arguments ColumnWidth {Model} column r.
Arguments SetColumnWidth {Model} column width r.
Arguments __init__ {Q Model} qt parent q.
Arguments style_me {Q Model} qt q.
Arguments autoresize_columns {Q Model} qt max_width q.
Arguments resize_on_expand {Q Model} qt q.
Arguments perform {Q Model} qt op q.
Arguments sets_display {Model} c.
Arguments sets_width {Model} c.
Arguments column_calls {Model} max_width i width.

(** ** A toolkit to run the class on *)

(** A toolkit that answers every call and counts the calls made.  Its view
    shows a model of two columns (the handle of a model is its number of
    columns), and a column resized to its contents is 300 wide. *)
Definition counting : QTreeView nat nat := {|
  QTreeView_init := fun _ q => (Ok tt, S q);
  singleShot := fun _ _ q => (Ok tt, S q);
  expanded_connect := fun _ q => (Ok tt, S q);
  header_show := fun q => (Ok tt, S q);
  setAutoScroll := fun _ q => (Ok tt, S q);
  setVerticalScrollMode := fun _ q => (Ok tt, S q);
  setHorizontalScrollMode := fun _ q => (Ok tt, S q);
  setStyleSheet := fun _ q => (Ok tt, S q);
  model := fun q => (Ok (Some 2%nat), S q);
  columnCount := fun m _ q => (Ok (Z.of_nat m), S q);
  setData := fun _ _ _ q => (Ok true, S q);
  resizeColumnToContents := fun _ q => (Ok tt, S q);
  columnWidth := fun _ q => (Ok 300, S q);
  setColumnWidth := fun _ _ q => (Ok tt, S q) |}.

(** On it, [autoresize_columns()] caps both columns at 200. *)
Example autoresize_columns_caps_the_widths :
  trace (autoresize_columns counting None 0%nat) =
    [GetModel (Ok (Some 2%nat)); ColumnCount 2%nat VNone (Ok 2);
     ResizeColumnToContents 0 (Ok tt); ColumnWidth 0 (Ok 300);
     SetColumnWidth 0 200 (Ok tt);
     ResizeColumnToContents 1 (Ok tt); ColumnWidth 1 (Ok 300);
     SetColumnWidth 1 200 (Ok tt)].
Proof. reflexivity. Qed.

(** and with a [max_width] of 400 leaves them as resized. *)
Example autoresize_columns_under_the_cap :
  trace (autoresize_columns counting (Some 400) 0%nat) =
    [GetModel (Ok (Some 2%nat)); ColumnCount 2%nat VNone (Ok 2);
     ResizeColumnToContents 0 (Ok tt); ColumnWidth 0 (Ok 300);
     ResizeColumnToContents 1 (Ok tt); ColumnWidth 1 (Ok 300)].
Proof. reflexivity. Qed.

(** C5 as stated fails: a call that sets a column width is made when an
    item is expanded, by [resize_on_expand], outside the timer callback. *)
Lemma column_width_changes_on_expansion :
  ¬ (∀ op q c,
       c ∈ trace (perform counting op q) →
       sets_display c || sets_width c = true →
       in_timer_callback op = true).
Proof.
  intros H.
  specialize (H ResizeOnExpand 0%nat (ResizeColumnToContents 0 (Ok tt))).
  discriminate H; [apply list_elem_of_here | reflexivity].
Qed.

(** C5 as amended, on [autoresize_columns()]: both columns of the model
    are resized to their contents. *)
Lemma tree_view_changes_witness :
  ∃ m n,
    ColumnCount m VNone (Ok n) ∈ trace (autoresize_columns counting None 0%nat) ∧
    ∀ i, 0 ≤ i < n →
      ResizeColumnToContents i (Ok tt)
        ∈ trace (autoresize_columns counting None 0%nat).
Proof.
  apply (proj1 (proj2 (proj2 (proj2 (proj2 (proj2
           (tree_view_changes nat nat unit (fun _ => tt) counting))))))
           None 0%nat).
  reflexivity.
Defined.

Lemma autoresize_columns_calls_witness :
  ∃ m n widths, length widths = Z.to_nat n ∧
    trace (autoresize_columns counting None 0%nat) =
      GetModel (Ok (Some m)) :: ColumnCount m VNone (Ok n) ::
      concat (zip_with (column_calls (default 200 None)) (range n) widths).
Proof.
  apply (proj1 (autoresize_columns_calls nat nat counting None 0%nat)).
  reflexivity.
Defined.

End QTreeView_Base.
